(** * The ChromeDriver [Service] manager of selenium's Python bindings

    A shallow embedding of [py/selenium/webdriver/chrome/service.py]: the
    class [Service] with its constructor, [start], [service_url] and [stop],
    together with the properties of its life cycle.

    The class talks to the operating system all the time (it spawns a
    process, probes a TCP port, sleeps, issues an HTTP request, closes pipes
    and kills the process).  Those calls are kept abstract: a [World] answers
    each of them as a function of everything that happened before, and each
    call is appended to a trace, so that "what the code did" can be stated
    on the trace and "what the code got back" on the world. *)

From Stdlib Require Import ZArith String List Lia.
From stdpp Require Import base list strings gmap pretty.

Local Open Scope string_scope.
Local Open Scope Z_scope.
Local Open Scope list_scope.

(** ** Python values the module handles *)

(** The exceptions that cross this module.  [OSError] keeps its [errno]
    ([None] when Python built it without one); every class the module does
    not look at is an [OtherError] carrying its class name. *)
Inductive exn : Type :=
| WebDriverException (msg : string)
| OSError (errno : option Z) (strerror : string)
| AttributeError (msg : string)
| OtherError (cls : string) (msg : string).

(** [errno.ENOENT] and [errno.EACCES]. *)
Definition ENOENT : Z := 2.
Definition EACCES : Z := 13.

(** What an operating-system call answers. *)
Inductive reply (A : Type) : Type :=
| Ok (a : A)
| Fails (e : exn).
Arguments Ok {A} a.
Arguments Fails {A} e.

(** What a piece of Python code does: it returns, it raises, or (for a
    [while] loop whose fuel is used up) it is still running. *)
Inductive outcome (A : Type) : Type :=
| Return (a : A)
| Raise (e : exn)
| Running.
Arguments Return {A} a.
Arguments Raise {A} e.
Arguments Running {A}.

Definition of_reply {A} (r : reply A) : outcome A :=
  match r with
  | Ok a => Return a
  | Fails e => Raise e
  end.

(** A [subprocess.Popen] object, told apart by its process id. *)
Record Popen : Type := { pid : Z }.

(** An environment mapping, [os.environ] or the [env] argument. *)
Abbreviation environ := (gmap string string).

(** The value of the attribute [self.process]: [__init__] never assigns it,
    so it may be missing altogether; [stop] compares it with [None]. *)
Inductive slot : Type :=
| NoAttribute
| IsNone
| IsPopen (p : Popen).

(** Python lists are objects: [self.service_args] is a reference into a
    store of lists, which is how [append] in [__init__] reaches the list the
    caller passed in. *)
Abbreviation loc := nat.

Record Service : Type := {
  port : Z;
  path : string;
  service_args : loc;
  env : option environ;
  process : slot
}.

(** ** Library functions *)

(** [os.path.basename] of [posixpath]: [i = p.rfind('/') + 1; return p[i:]].
    [basename_from cur p] walks [p] and keeps in [cur] the part after the
    last slash seen so far. *)
Definition slash : Ascii.ascii := Ascii.ascii_of_nat 47.

Fixpoint basename_from (cur p : string) : string :=
  match p with
  | EmptyString => cur
  | String c p' =>
      if Ascii.eqb c slash then basename_from p' p' else basename_from cur p'
  end.

Definition basename (p : string) : string := basename_from p p.

(** ["%d" % n] for a Python integer. *)
Definition fmt_d (n : Z) : string := pretty n.

(** ** The world outside and the trace of calls *)

Inductive event : Type :=
| free_port_ev
| Popen_ev (args : list string) (env : environ)
| is_connectable_ev (port : Z)
| sleep_ev (secs : Z)
| urlopen_ev (url : string)
| stdout_close_ev (p : Popen)
| stderr_close_ev (p : Popen)
| kill_ev (p : Popen)
| wait_ev (p : Popen).

(** Every answer may depend on the calls made so far (the trace before the
    call).  The calls the module guards with [try], or documents as
    propagating, may fail.  [utils.free_port] and [utils.is_connectable]
    answer with a value and [time.sleep] returns: what is proved below is
    about the runs in which these three return, and a run in which one of
    them raises is outside this development. *)
Record World : Type := {
  os_environ : environ;
  utils_free_port : list event -> Z;
  subprocess_Popen : list string -> environ -> list event -> reply Popen;
  utils_is_connectable : Z -> list event -> bool;
  url_request_urlopen : string -> list event -> reply unit;
  stdout_close : Popen -> list event -> reply unit;
  stderr_close : Popen -> list event -> reply unit;
  Popen_kill : Popen -> list event -> reply unit;
  Popen_wait : Popen -> list event -> reply unit
}.

(** The interpreter's side: the store of list objects and the trace. *)
Record system : Type := { heap : list (list string); trace : list event }.

(** A [Service] instance in its interpreter. *)
Record object : Type := { self : Service; sys : system }.

(** ** A state and exception monad *)

Definition M (S A : Type) : Type := S -> outcome A * S.

Definition ret {S A} (a : A) : M S A := fun s => (Return a, s).

Definition bind {S A B} (m : M S A) (k : A -> M S B) : M S B :=
  fun s =>
    match m s with
    | (Return a, s') => k a s'
    | (Raise e, s') => (Raise e, s')
    | (Running, s') => (Running, s')
    end.

Definition raise {S A} (e : exn) : M S A := fun s => (Raise e, s).

Definition running {S A} : M S A := fun s => (Running, s).

(** [try: m except OSError: pass] *)
Definition except_OSError_pass {S} (m : M S unit) : M S unit :=
  fun s =>
    match m s with
    | (Raise (OSError _ _), s') => (Return tt, s')
    | r => r
    end.

(** [try: m except Exception as e: h e], with the handler free to re-raise. *)
Definition try_except {S A} (m : M S A) (h : exn -> M S A) : M S A :=
  fun s =>
    match m s with
    | (Raise e, s') => h e s'
    | r => r
    end.

Declare Scope py_scope.
Delimit Scope py_scope with py.
Notation "x <- m ;; k" := (bind m (fun x => k))
  (at level 90, m at next level, right associativity) : py_scope.
Notation "m ;;; k" := (bind m (fun _ => k))
  (at level 90, right associativity) : py_scope.
Local Open Scope py_scope.

(** Code that only touches the interpreter, run inside a method. *)
Definition in_sys {A} (m : M system A) : M object A :=
  fun o =>
    let (r, y) := m (sys o) in (r, {| self := self o; sys := y |}).

Definition get_self : M object Service := fun o => (Return (self o), o).

(** The instance [s] with its attribute [process] bound to [v]. *)
Definition with_process (s : Service) (v : slot) : Service :=
  {| port := port s; path := path s; service_args := service_args s;
     env := env s; process := v |}.

(** [self.process = p] *)
Definition set_process (p : Popen) : M object unit :=
  fun o =>
    (Return tt, {| self := with_process (self o) (IsPopen p); sys := sys o |}).

(** Reading [self.process]: a missing attribute raises. *)
Definition get_process : M object slot :=
  s <- get_self ;;
  match process s with
  | NoAttribute =>
      raise (AttributeError "'Service' object has no attribute 'process'")
  | v => ret v
  end.

(** *** List objects *)

(** The contents of the list at [l]; the references a caller hands over
    are live, a dangling one reads as the empty list. *)
Definition load (l : loc) : M system (list string) :=
  fun y => (Return (default [] (heap y !! l)), y).

(** [[]]: a new list object. *)
Definition new_list : M system loc :=
  fun y =>
    (Return (length (heap y)), {| heap := heap y ++ [[]]; trace := trace y |}).

(** [l.append(x)] *)
Definition list_append (l : loc) (x : string) : M system unit :=
  fun y =>
    (Return tt,
     {| heap := <[l := default [] (heap y !! l) ++ [x]]> (heap y);
        trace := trace y |}).

(** *** Calls into the world *)

Definition call {A} (e : event) (answer : list event -> reply A)
  : M system A :=
  fun y =>
    (of_reply (answer (trace y)),
     {| heap := heap y; trace := trace y ++ [e] |}).

Section Service.

Variable W : World.

Definition free_port : M system Z :=
  call free_port_ev (fun t => Ok (utils_free_port W t)).

Definition spawn (args : list string) (e : environ) : M system Popen :=
  call (Popen_ev args e) (subprocess_Popen W args e).

Definition is_connectable (n : Z) : M system bool :=
  call (is_connectable_ev n) (fun t => Ok (utils_is_connectable W n t)).

Definition sleep (secs : Z) : M system unit :=
  call (sleep_ev secs) (fun _ => Ok tt).

Definition urlopen (url : string) : M system unit :=
  call (urlopen_ev url) (url_request_urlopen W url).

(** ** The class [Service] *)

(** [service_args or []] *)
Definition service_args_or_new (service_args : option loc) : M system loc :=
  match service_args with
  | None => new_list
  | Some l =>
      xs <- load l ;;
      match xs with
      | [] => new_list
      | _ :: _ => ret l
      end
  end.

(** [Service.__init__(executable_path, port=0, service_args=None,
    log_path=None, env=None)] *)
Definition __init__ (executable_path : string) (port : Z)
    (service_args : option loc) (log_path : option string)
    (env : option environ) : M system Service :=
  let self_port := port in
  let self_path := executable_path in
  self_service_args <- service_args_or_new service_args ;;
  match log_path with
  | None | Some EmptyString => ret tt
  | Some lp => list_append self_service_args ("--log-path=" +:+ lp)
  end ;;;
  self_port <- (if self_port =? 0 then free_port else ret self_port) ;;
  ret {| port := self_port; path := self_path;
         service_args := self_service_args; env := env;
         process := NoAttribute |}.

(** The default of the [port] parameter. *)
Definition default_port : Z := 0.

(** [self.env or os.environ]: [None] and the empty mapping are both false. *)
Definition env_or_os_environ (e : option environ) : environ :=
  match e with
  | None => os_environ W
  | Some m => if bool_decide (m = ∅) then os_environ W else m
  end.

(** The list handed to [subprocess.Popen]. *)
Definition argv (s : Service) (extra : list string) : list string :=
  [path s; "--port=" +:+ fmt_d (port s)] ++ extra.

Definition docs_msg : string :=
  "Please see " +:+ "https://sites.google.com/a/chromium.org/chromedriver/home".

(** The [except OSError as err] clause of [start]. *)
Definition start_except (s : Service) (err : exn) : M object unit :=
  match err with
  | OSError errno _ =>
      if bool_decide (errno = Some ENOENT) then
        raise (WebDriverException
                 ("'" +:+ basename (path s)
                      +:+ "' executable needs to be in PATH. " +:+ docs_msg))
      else if bool_decide (errno = Some EACCES) then
        raise (WebDriverException
                 ("'" +:+ basename (path s)
                      +:+ "' executable may have wrong permissions. "
                      +:+ docs_msg))
      else raise err
  | _ => raise err
  end.

(** The [try] statement of [start]. *)
Definition start_spawn : M object unit :=
  s <- get_self ;;
  let env := env_or_os_environ (env s) in
  try_except
    (extra <- in_sys (load (service_args s)) ;;
     p <- in_sys (spawn (argv s extra) env) ;;
     set_process p)
    (start_except s).

(** The [while not utils.is_connectable(self.port)] loop of [start], entered
    with the current value of [count]. *)
Fixpoint start_poll (fuel : nat) (count : Z) : M object unit :=
  match fuel with
  | O => running
  | S fuel' =>
      s <- get_self ;;
      c <- in_sys (is_connectable (port s)) ;;
      if negb c then
        let count := count + 1 in
        in_sys (sleep 1) ;;;
        if count =? 30 then
          raise (WebDriverException
                   ("Can not connect to the '" +:+ basename (path s) +:+ "'"))
        else start_poll fuel' count
      else ret tt
  end.

(** [Service.start]; the loop starts at [count = 0] and [30] rounds are
    all it can make (see [start_poll_fuel]). *)
Definition start : M object unit :=
  start_spawn ;;;
  let count := 0 in
  start_poll 30 count.

(** [Service.service_url] *)
Definition service_url : M object string :=
  s <- get_self ;;
  ret ("http://localhost:" +:+ fmt_d (port s)).

(** The [while utils.is_connectable(self.port)] loop of [stop]. *)
Fixpoint stop_poll (fuel : nat) (count : Z) : M object unit :=
  match fuel with
  | O => running
  | S fuel' =>
      s <- get_self ;;
      c <- in_sys (is_connectable (port s)) ;;
      if c then
        if count =? 30 then ret tt
        else
          let count := count + 1 in
          in_sys (sleep 1) ;;;
          stop_poll fuel' count
      else ret tt
  end.

(** The body of the last [try] of [stop]. *)
Definition stop_cleanup : M object unit :=
  v <- get_process ;;
  match v with
  | IsPopen p =>
      in_sys (call (stdout_close_ev p) (stdout_close W p)) ;;;
      in_sys (call (stderr_close_ev p) (stderr_close W p)) ;;;
      in_sys (call (kill_ev p) (Popen_kill W p)) ;;;
      in_sys (call (wait_ev p) (Popen_wait W p))
  | _ => ret tt
  end.

(** [Service.stop]; its loop makes at most [31] probes (see
    [stop_poll_fuel]).  The import of [url_request], from [urllib] or from
    [urllib2], has no part in what follows and is left out. *)
Definition stop : M object unit :=
  v <- get_process ;;
  match v with
  | IsNone => ret tt
  | _ =>
      s <- get_self ;;
      in_sys (urlopen ("http://127.0.0.1:" +:+ fmt_d (port s) +:+ "/shutdown")) ;;;
      let count := 0 in
      stop_poll 31 count ;;;
      except_OSError_pass stop_cleanup
  end.

(** ** Using an instance *)

(** [o] is the instance that [Service(executable_path, port, service_args,
    log_path, env)] builds in the interpreter [y]. *)
Definition constructed (executable_path : string) (port : Z)
    (service_args : option loc) (log_path : option string)
    (env : option environ) (y : system) (o : object) : Prop :=
  __init__ executable_path port service_args log_path env y
  = (Return (self o), sys o).

(** The operations a client has on an instance. *)
Inductive method : Type :=
| call_start
| call_service_url
| call_stop.

(** One call; what it returned is dropped, what it did stays. *)
Definition invoke (m : method) (o : object) : object :=
  match m with
  | call_start => snd (start o)
  | call_service_url => snd (service_url o)
  | call_stop => snd (stop o)
  end.

(** A client that makes the calls [ms] in turn, catching what they raise. *)
Definition lifetime (ms : list method) (o : object) : object :=
  fold_left (fun o m => invoke m o) ms o.

End Service.

(** ** Vocabulary for the statements *)

(** The object [o] after the calls [es] were made. *)
Definition logged (o : object) (es : list event) : object :=
  {| self := self o;
     sys := {| heap := heap (sys o); trace := trace (sys o) ++ es |} |}.

(** The object [o] with [self.process] bound to [v], after the calls [es]. *)
Definition moved (o : object) (v : slot) (es : list event) : object :=
  {| self := with_process (self o) v;
     sys := {| heap := heap (sys o); trace := trace (sys o) ++ es |} |}.

(** What [self.service_args] holds. *)
Definition extra_args (o : object) : list string :=
  default [] (heap (sys o) !! service_args (self o)).

(** The [Popen] call that [start] makes on [o]. *)
Definition spawn_argv (o : object) : list string :=
  argv (self o) (extra_args o).

Definition spawn_env (W : World) (o : object) : environ :=
  env_or_os_environ W (env (self o)).

Definition spawn_ev (W : World) (o : object) : event :=
  Popen_ev (spawn_argv o) (spawn_env W o).

(** The URL that [stop] requests. *)
Definition shutdown_url (o : object) : string :=
  "http://127.0.0.1:" +:+ fmt_d (port (self o)) +:+ "/shutdown".

(** One unsuccessful round of the loop of [start]: a probe and a sleep. *)
Definition round (n : Z) : list event := [is_connectable_ev n; sleep_ev 1].

Definition rounds (k : nat) (n : Z) : list event :=
  concat (replicate k (round n)).

(** The message of the exception [start] raises when the port stays
    closed. *)
Definition unreachable_msg (o : object) : string :=
  "Can not connect to the '" +:+ basename (path (self o)) +:+ "'".

Definition not_found_msg (o : object) : string :=
  "'" +:+ basename (path (self o)) +:+ "' executable needs to be in PATH. "
      +:+ docs_msg.

Definition permission_msg (o : object) : string :=
  "'" +:+ basename (path (self o))
      +:+ "' executable may have wrong permissions. " +:+ docs_msg.

(** The contents, at construction, of the list passed as [service_args]. *)
Definition supplied (y : system) (service_args : option loc) : list string :=
  match service_args with
  | None => []
  | Some l => default [] (heap y !! l)
  end.

(** The argument that [__init__] appends for [log_path]. *)
Definition log_entry (log_path : option string) : list string :=
  match log_path with
  | None | Some EmptyString => []
  | Some lp => ["--log-path=" +:+ lp]
  end.

(** The port an instance built with [port] in the interpreter [y] has. *)
Definition resolved (W : World) (port : Z) (y : system) : Z :=
  if port =? 0 then utils_free_port W (trace y) else port.

(** Whether [self.process] holds a process. *)
Definition has_process (o : object) : bool :=
  match process (self o) with
  | IsPopen _ => true
  | _ => false
  end.

(** Classes of events. *)
Definition is_urlopen (e : event) : bool :=
  match e with urlopen_ev _ => true | _ => false end.

Definition is_Popen (e : event) : bool :=
  match e with Popen_ev _ _ => true | _ => false end.

Definition is_probe (e : event) : bool :=
  match e with is_connectable_ev _ => true | _ => false end.

Definition is_free_port (e : event) : bool :=
  match e with free_port_ev => true | _ => false end.

Definition is_cleanup (e : event) : bool :=
  match e with
  | stdout_close_ev _ | stderr_close_ev _ | kill_ev _ | wait_ev _ => true
  | _ => false
  end.

(** The events of a polling loop. *)
Definition is_poll (e : event) : bool :=
  match e with is_connectable_ev _ | sleep_ev _ => true | _ => false end.

(** The number of connection attempts in a trace. *)
Definition attempts (t : list event) : nat := length (filter is_probe t).

(** The forced cleanup of [stop] on the process [p], in the order of the
    source. *)
Definition cleanup_of (p : Popen) : list event :=
  [stdout_close_ev p; stderr_close_ev p; kill_ev p; wait_ev p].

(** [ev] is not a spawn, or it is a spawn with the argument list [v]. *)
Definition spawns_with (v : list string) (ev : event) : Prop :=
  match ev with
  | Popen_ev a _ => a = v
  | _ => True
  end.

(** The events of [stop W o] that belong to the forced cleanup. *)
Definition cleanup_done (W : World) (o : object) : list event :=
  List.filter is_cleanup
    (drop (length (trace (sys o))) (trace (sys (snd (stop W o))))).

(** What the methods of the instance [o] may do to the world: they never
    ask for a port, and they spawn with the arguments and the environment
    fixed at construction. *)
Definition allowed (W : World) (o : object) (e : event) : Prop :=
  match e with
  | free_port_ev => False
  | Popen_ev a m => a = spawn_argv o /\ m = spawn_env W o
  | _ => True
  end.

(** ** Vocabulary for the footprint of a call *)

(** The calls into the world that [start W o] and [stop W o] make. *)
Definition start_events (W : World) (o : object) : list event :=
  drop (length (trace (sys o))) (trace (sys (snd (start W o)))).

Definition stop_events (W : World) (o : object) : list event :=
  drop (length (trace (sys o))) (trace (sys (snd (stop W o)))).

(** The time slept in a trace, in the unit of [time.sleep]. *)
Definition slept (t : list event) : Z :=
  fold_right
    (fun ev acc => match ev with sleep_ev secs => secs + acc | _ => acc end)
    0 t.

(** What the machine answers to the cleanup call [ev] made after the
    calls [t]. *)
Definition cleanup_reply (W : World) (ev : event) (t : list event)
  : reply unit :=
  match ev with
  | stdout_close_ev p => stdout_close W p t
  | stderr_close_ev p => stderr_close W p t
  | kill_ev p => Popen_kill W p t
  | wait_ev p => Popen_wait W p t
  | _ => Ok tt
  end.

(** The calls of [calls] that get made, in order, after the calls [t]: each
    one is made when those before it returned, and the first one that
    raises is the last. *)
Fixpoint until_raise (W : World) (calls t : list event) : list event :=
  match calls with
  | [] => []
  | ev :: calls' =>
      match cleanup_reply W ev t with
      | Ok _ => ev :: until_raise W calls' (t ++ [ev])
      | Fails _ => [ev]
      end
  end.

(** Whether a path has a slash in it. *)
Fixpoint has_slash (s : string) : bool :=
  match s with
  | EmptyString => false
  | String c s' => Ascii.eqb c slash || has_slash s'
  end.

(** ** Sample worlds

    Concrete machines on which the definitions run. *)

Definition connection_refused : exn :=
  OtherError "URLError" "<urlopen error [Errno 111] Connection refused>".

(** A machine with a working driver: the driver listens from the moment it
    is spawned until it is asked to shut down, and answers the first
    shutdown request; afterwards nothing listens on the port. *)
Definition driver_world : World :=
  {| os_environ := {[ "PATH" := "/usr/bin" ]};
     utils_free_port := fun _ => 49152;
     subprocess_Popen := fun _ _ _ => Ok {| pid := 4242 |};
     utils_is_connectable := fun _ t =>
       existsb is_Popen t && negb (existsb is_urlopen t);
     url_request_urlopen := fun _ t =>
       if existsb is_urlopen t then Fails connection_refused else Ok tt;
     stdout_close := fun _ _ => Ok tt;
     stderr_close := fun _ _ => Ok tt;
     Popen_kill := fun _ _ => Ok tt;
     Popen_wait := fun _ _ => Ok tt |}.

(** A machine whose driver starts but never opens its port. *)
Definition deaf_world : World :=
  {| os_environ := {[ "PATH" := "/usr/bin" ]};
     utils_free_port := fun _ => 49152;
     subprocess_Popen := fun _ _ _ => Ok {| pid := 4242 |};
     utils_is_connectable := fun _ _ => false;
     url_request_urlopen := fun _ _ => Fails connection_refused;
     stdout_close := fun _ _ => Ok tt;
     stderr_close := fun _ _ => Ok tt;
     Popen_kill := fun _ _ => Ok tt;
     Popen_wait := fun _ _ => Ok tt |}.

(** A machine whose driver listens but whose shutdown request fails. *)
Definition stubborn_world : World :=
  {| os_environ := {[ "PATH" := "/usr/bin" ]};
     utils_free_port := fun _ => 49152;
     subprocess_Popen := fun _ _ _ => Ok {| pid := 4242 |};
     utils_is_connectable := fun _ _ => true;
     url_request_urlopen := fun _ _ =>
       Fails (OtherError "HTTPError" "HTTP Error 404: Not Found");
     stdout_close := fun _ _ => Ok tt;
     stderr_close := fun _ _ => Ok tt;
     Popen_kill := fun _ _ => Ok tt;
     Popen_wait := fun _ _ => Ok tt |}.

(** A machine on which spawning fails with [err]. *)
Definition broken_world (err : exn) : World :=
  {| os_environ := ∅;
     utils_free_port := fun _ => 49152;
     subprocess_Popen := fun _ _ _ => Fails err;
     utils_is_connectable := fun _ _ => false;
     url_request_urlopen := fun _ _ => Fails connection_refused;
     stdout_close := fun _ _ => Ok tt;
     stderr_close := fun _ _ => Ok tt;
     Popen_kill := fun _ _ => Ok tt;
     Popen_wait := fun _ _ => Ok tt |}.

(** An interpreter that holds the list [["--verbose"]] and has made no
    call yet. *)
Definition boot : system := {| heap := [["--verbose"]]; trace := [] |}.

(** A machine whose driver opens its port only after [k] connection
    attempts have been refused. *)
Definition slow_world (k : nat) : World :=
  {| os_environ := {[ "PATH" := "/usr/bin" ]};
     utils_free_port := fun _ => 49152;
     subprocess_Popen := fun _ _ _ => Ok {| pid := 4242 |};
     utils_is_connectable := fun _ t => bool_decide (k <= attempts t)%nat;
     url_request_urlopen := fun _ _ => Ok tt;
     stdout_close := fun _ _ => Ok tt;
     stderr_close := fun _ _ => Ok tt;
     Popen_kill := fun _ _ => Ok tt;
     Popen_wait := fun _ _ => Ok tt |}.

(** A machine whose driver accepts the shutdown request and keeps its port
    open until [k] connection attempts have been made in all. *)
Definition fading_world (k : nat) : World :=
  {| os_environ := {[ "PATH" := "/usr/bin" ]};
     utils_free_port := fun _ => 49152;
     subprocess_Popen := fun _ _ _ => Ok {| pid := 4242 |};
     utils_is_connectable := fun _ t => bool_decide (attempts t < k)%nat;
     url_request_urlopen := fun _ _ => Ok tt;
     stdout_close := fun _ _ => Ok tt;
     stderr_close := fun _ _ => Ok tt;
     Popen_kill := fun _ _ => Ok tt;
     Popen_wait := fun _ _ => Ok tt |}.

(** A machine whose driver answers the shutdown request and goes on
    listening, and on which [kill] is not available. *)
Definition windows_world : World :=
  {| os_environ := {[ "PATH" := "C:/bin" ]};
     utils_free_port := fun _ => 49152;
     subprocess_Popen := fun _ _ _ => Ok {| pid := 4242 |};
     utils_is_connectable := fun _ _ => true;
     url_request_urlopen := fun _ _ => Ok tt;
     stdout_close := fun _ _ => Ok tt;
     stderr_close := fun _ _ => Ok tt;
     Popen_kill := fun _ _ => Fails (OSError (Some 22) "Invalid argument");
     Popen_wait := fun _ _ => Ok tt |}.

(** A machine that gives every spawned process a new process id, counting
    from [4242]. *)
Definition respawn_world : World :=
  {| os_environ := {[ "PATH" := "/usr/bin" ]};
     utils_free_port := fun _ => 49152;
     subprocess_Popen := fun _ _ t =>
       Ok {| pid := 4242 + Z.of_nat (length (List.filter is_Popen t)) |};
     utils_is_connectable := fun _ _ => true;
     url_request_urlopen := fun _ _ => Ok tt;
     stdout_close := fun _ _ => Ok tt;
     stderr_close := fun _ _ => Ok tt;
     Popen_kill := fun _ _ => Ok tt;
     Popen_wait := fun _ _ => Ok tt |}.


(** An interpreter that holds one empty list and has made no call yet. *)
Definition bare : system := {| heap := [[]]; trace := [] |}.

(** The instance [Service("/usr/local/bin/chromedriver",
    service_args=<the list of [boot]>, log_path="/tmp/chromedriver.log")]
    on a machine whose free port is [49152] (see [sample_constructed]). *)
Definition sample : object :=
  {| self := {| port := 49152; path := "/usr/local/bin/chromedriver";
                service_args := 0%nat; env := None;
                process := NoAttribute |};
     sys := {| heap := [["--verbose"; "--log-path=/tmp/chromedriver.log"]];
               trace := [free_port_ev] |} |}.

(** The same instance with another [env] argument. *)
Definition sample_with_env (e : option environ) : object :=
  {| self := {| port := 49152; path := "/usr/local/bin/chromedriver";
                service_args := 0%nat; env := e; process := NoAttribute |};
     sys := sys sample |}.

Definition display : environ := {[ "DISPLAY" := ":0" ]}.

(** ** Basic facts *)

Lemma logged_nil (o : object) : logged o [] = o.
Proof.
  destruct o as [s [h t]]. unfold logged. simpl. by rewrite app_nil_r.
Qed.

Lemma logged_logged (o : object) (a b : list event) :
  logged (logged o a) b = logged o (a ++ b).
Proof. unfold logged. simpl. by rewrite app_assoc. Qed.

Lemma with_process_same (s : Service) : with_process s (process s) = s.
Proof. by destruct s. Qed.

Lemma moved_same (o : object) : moved o (process (self o)) [] = o.
Proof.
  destruct o as [s [h t]]. unfold moved. simpl.
  by rewrite with_process_same, app_nil_r.
Qed.

Lemma logged_moved (o : object) (es : list event) :
  logged o es = moved o (process (self o)) es.
Proof. unfold logged, moved. by rewrite with_process_same. Qed.

Lemma moved_moved (o : object) (v v' : slot) (a b : list event) :
  moved (moved o v a) v' b = moved o v' (a ++ b).
Proof. unfold moved. simpl. by rewrite app_assoc. Qed.

Lemma spawn_argv_moved (o : object) (v : slot) (es : list event) :
  spawn_argv (moved o v es) = spawn_argv o.
Proof. reflexivity. Qed.

Lemma allowed_moved (W : World) (o : object) (v : slot) (es : list event)
    (e : event) :
  allowed W (moved o v es) e <-> allowed W o e.
Proof. reflexivity. Qed.

Lemma poll_allowed (W : World) (o : object) (t : list event) :
  Forall (fun e => is_poll e = true) t -> Forall (allowed W o) t.
Proof.
  intros Ht. eapply Forall_impl; [exact Ht|].
  intros e He. by destruct e.
Qed.

Lemma rounds_S (k : nat) (n : Z) : rounds (S k) n = round n ++ rounds k n.
Proof. reflexivity. Qed.

Lemma rounds_poll (k : nat) (n : Z) :
  Forall (fun e => is_poll e = true) (rounds k n).
Proof.
  induction k as [|k IH]; [constructor|].
  rewrite rounds_S. repeat constructor. exact IH.
Qed.

Lemma attempts_app (a b : list event) :
  attempts (a ++ b) = (attempts a + attempts b)%nat.
Proof. unfold attempts. by rewrite filter_app, length_app. Qed.

Lemma attempts_rounds (k : nat) (n : Z) : attempts (rounds k n) = k.
Proof.
  induction k as [|k IH]; [reflexivity|].
  rewrite rounds_S, attempts_app, IH. reflexivity.
Qed.

Section Lifecycle.

Variable W : World.

(** *** The two loops *)

Lemma start_poll_S (fuel : nat) (count : Z) (o : object) :
  start_poll W (S fuel) count o =
  if utils_is_connectable W (port (self o)) (trace (sys o)) then
    (Return tt, logged o [is_connectable_ev (port (self o))])
  else if count + 1 =? 30 then
    (Raise (WebDriverException (unreachable_msg o)),
     logged o (round (port (self o))))
  else start_poll W fuel (count + 1) (logged o (round (port (self o)))).
Proof.
  destruct o as [s [h t]]. simpl.
  unfold bind, get_self, in_sys, is_connectable, sleep, call, logged. simpl.
  destruct (utils_is_connectable W (port s) t); simpl; [reflexivity|].
  rewrite <- app_assoc. simpl.
  destruct (count + 1 =? 30); reflexivity.
Qed.

Lemma stop_poll_S (fuel : nat) (count : Z) (o : object) :
  stop_poll W (S fuel) count o =
  if utils_is_connectable W (port (self o)) (trace (sys o)) then
    if count =? 30 then
      (Return tt, logged o [is_connectable_ev (port (self o))])
    else stop_poll W fuel (count + 1) (logged o (round (port (self o))))
  else (Return tt, logged o [is_connectable_ev (port (self o))]).
Proof.
  destruct o as [s [h t]]. simpl.
  unfold bind, get_self, in_sys, is_connectable, sleep, call, logged. simpl.
  destruct (utils_is_connectable W (port s) t); simpl; [|reflexivity].
  destruct (count =? 30); simpl; [reflexivity|].
  rewrite <- app_assoc. reflexivity.
Qed.

(** Both loops only probe and sleep, and leave the instance alone. *)
Lemma start_poll_frame (fuel : nat) :
  forall (count : Z) (o : object),
    exists t, snd (start_poll W fuel count o) = logged o t
              /\ Forall (fun e => is_poll e = true) t.
Proof.
  induction fuel as [|fuel IH]; intros count o.
  - exists []. simpl. by rewrite logged_nil.
  - rewrite start_poll_S.
    destruct (utils_is_connectable W _ _).
    + eexists. split; [reflexivity|]. by repeat constructor.
    + destruct (count + 1 =? 30).
      * eexists. split; [reflexivity|]. by repeat constructor.
      * destruct (IH (count + 1) (logged o (round (port (self o)))))
          as (t & Ht & Hp).
        exists (round (port (self o)) ++ t). rewrite Ht, logged_logged.
        split; [reflexivity|]. by repeat constructor.
Qed.

Lemma stop_poll_frame (fuel : nat) :
  forall (count : Z) (o : object),
    exists t, snd (stop_poll W fuel count o) = logged o t
              /\ Forall (fun e => is_poll e = true) t.
Proof.
  induction fuel as [|fuel IH]; intros count o.
  - exists []. simpl. by rewrite logged_nil.
  - rewrite stop_poll_S.
    destruct (utils_is_connectable W _ _).
    + destruct (count =? 30).
      * eexists. split; [reflexivity|]. by repeat constructor.
      * destruct (IH (count + 1) (logged o (round (port (self o)))))
          as (t & Ht & Hp).
        exists (round (port (self o)) ++ t). rewrite Ht, logged_logged.
        split; [reflexivity|]. by repeat constructor.
    + eexists. split; [reflexivity|]. by repeat constructor.
Qed.

(** The loops end: from [count], the loop of [start] makes at most
    [30 - count] rounds and the loop of [stop] at most [31 - count]
    probes. *)
Lemma start_poll_fuel (fuel : nat) :
  forall (count : Z) (o : object),
    0 <= count < 30 -> 30 - count <= Z.of_nat fuel ->
    fst (start_poll W fuel count o) <> Running.
Proof.
  induction fuel as [|fuel IH]; intros count o Hc Hf; [lia|].
  rewrite start_poll_S.
  destruct (utils_is_connectable W _ _); [done|].
  destruct (count + 1 =? 30) eqn:E; [done|].
  apply IH; lia.
Qed.

Lemma stop_poll_fuel (fuel : nat) :
  forall (count : Z) (o : object),
    0 <= count <= 30 -> 31 - count <= Z.of_nat fuel ->
    fst (stop_poll W fuel count o) <> Running.
Proof.
  induction fuel as [|fuel IH]; intros count o Hc Hf; [lia|].
  rewrite stop_poll_S.
  destruct (utils_is_connectable W _ _); [|done].
  destruct (count =? 30) eqn:E; [done|].
  apply IH; lia.
Qed.

(** The loop of [stop] never raises. *)
Lemma stop_poll_returns (fuel : nat) :
  forall (count : Z) (o : object),
    0 <= count <= 30 -> 31 - count <= Z.of_nat fuel ->
    fst (stop_poll W fuel count o) = Return tt.
Proof.
  induction fuel as [|fuel IH]; intros count o Hc Hf; [lia|].
  rewrite stop_poll_S.
  destruct (utils_is_connectable W _ _); [|done].
  destruct (count =? 30) eqn:E; [done|].
  apply IH; lia.
Qed.

(** A port that stays closed: the loop of [start] runs its rounds up to
    [count = 30] and raises. *)
Lemma start_poll_closed (k : nat) :
  forall (fuel : nat) (count : Z) (o : object),
    (forall t, utils_is_connectable W (port (self o)) t = false) ->
    count + Z.of_nat (S k) = 30 -> (S k <= fuel)%nat ->
    start_poll W fuel count o =
    (Raise (WebDriverException (unreachable_msg o)),
     logged o (rounds (S k) (port (self o)))).
Proof.
  induction k as [|k IH]; intros fuel count o Hclosed Hc Hf;
    (destruct fuel as [|fuel]; [lia|]);
    rewrite start_poll_S, Hclosed.
  - replace (count + 1 =? 30) with true by lia. reflexivity.
  - replace (count + 1 =? 30) with false by lia.
    rewrite (IH fuel (count + 1) (logged o (round (port (self o)))));
      [|exact Hclosed|lia|lia].
    by rewrite logged_logged.
Qed.

(** With its fuel the loop of [start] returns, or raises the one error it
    has. *)
Lemma start_poll_outcome (fuel : nat) :
  forall (count : Z) (o : object),
    0 <= count < 30 -> 30 - count <= Z.of_nat fuel ->
    fst (start_poll W fuel count o) = Return tt
    \/ fst (start_poll W fuel count o)
       = Raise (WebDriverException (unreachable_msg o)).
Proof.
  induction fuel as [|fuel IH]; intros count o Hc Hf; [lia|].
  rewrite start_poll_S.
  destruct (utils_is_connectable W _ _); [by left|].
  destruct (count + 1 =? 30) eqn:E; [by right|].
  apply (IH (count + 1) (logged o (round (port (self o))))); lia.
Qed.

(** More fuel than a loop needs changes nothing. *)
Lemma start_poll_more (fuel : nat) :
  forall (count : Z) (o : object),
    fst (start_poll W fuel count o) <> Running ->
    start_poll W (S fuel) count o = start_poll W fuel count o.
Proof.
  induction fuel as [|fuel IH]; intros count o Hr; [done|].
  rewrite (start_poll_S (S fuel)). rewrite (start_poll_S fuel count o) in Hr |- *.
  destruct (utils_is_connectable W _ _); [done|].
  destruct (count + 1 =? 30); [done|]. by apply IH.
Qed.

Lemma stop_poll_more (fuel : nat) :
  forall (count : Z) (o : object),
    fst (stop_poll W fuel count o) <> Running ->
    stop_poll W (S fuel) count o = stop_poll W fuel count o.
Proof.
  induction fuel as [|fuel IH]; intros count o Hr; [done|].
  rewrite (stop_poll_S (S fuel)). rewrite (stop_poll_S fuel count o) in Hr |- *.
  destruct (utils_is_connectable W _ _); [|done].
  destruct (count =? 30); [done|]. by apply IH.
Qed.

(** From here on the loops are used through the lemmas above. *)
Arguments start_poll : simpl never.
Arguments stop_poll : simpl never.

(** *** The constructor *)

Lemma init_spec (executable_path : string) (n : Z) (sa : option loc)
    (lp : option string) (e : option environ) (y : system) :
  exists o : object,
    constructed W executable_path n sa lp e y o
    /\ path (self o) = executable_path
    /\ port (self o) = resolved W n y
    /\ env (self o) = e
    /\ process (self o) = NoAttribute
    /\ trace (sys o) = trace y ++ (if n =? 0 then [free_port_ev] else [])
    /\ extra_args o = supplied y sa ++ log_entry lp.
Proof.
  destruct y as [h t].
  assert (Hnew : forall x : string,
             default [] (<[length h := [] ++ [x]]> (h ++ [[]]) !! length h)
             = [x]).
  { intros x. rewrite list_lookup_insert_eq; [done|].
    rewrite length_app. simpl. lia. }
  assert (Hend : default [] ((h ++ [[]]) !! length h) = @nil string).
  { rewrite lookup_app_r by lia. by rewrite Nat.sub_diag. }
  unfold constructed, __init__, resolved, extra_args, supplied.
  destruct sa as [l|]; simpl.
  - unfold bind, load, new_list, list_append, free_port, call, ret. simpl.
    destruct (h !! l) as [[|x xs]|] eqn:Hl; simpl.
    + destruct lp as [[|c lp]|]; simpl; destruct (n =? 0); simpl;
        eexists {| self := _; sys := _ |}; simpl;
        (split; [reflexivity|]); simpl;
        rewrite ?app_nil_r, ?Hend, ?Hnew; done.
    + destruct lp as [[|c lp]|]; simpl; destruct (n =? 0); simpl;
        eexists {| self := _; sys := _ |}; simpl;
        (split; [reflexivity|]); simpl;
        rewrite ?app_nil_r; repeat split; try done;
        try (rewrite list_lookup_insert_eq by (by apply lookup_lt_Some in Hl));
        rewrite ?Hl; done.
    + destruct lp as [[|c lp]|]; simpl; destruct (n =? 0); simpl;
        eexists {| self := _; sys := _ |}; simpl;
        (split; [reflexivity|]); simpl;
        rewrite ?app_nil_r, ?Hend, ?Hnew; done.
  - unfold bind, load, new_list, list_append, free_port, call, ret. simpl.
    destruct lp as [[|c lp]|]; simpl; destruct (n =? 0); simpl;
      eexists {| self := _; sys := _ |}; simpl;
      (split; [reflexivity|]); simpl;
      rewrite ?app_nil_r, ?Hend, ?Hnew; done.
Qed.

(** The constructor builds one instance only. *)
Lemma constructed_inj (executable_path : string) (n : Z) (sa : option loc)
    (lp : option string) (e : option environ) (y : system) (o o' : object) :
  constructed W executable_path n sa lp e y o ->
  constructed W executable_path n sa lp e y o' -> o = o'.
Proof.
  unfold constructed. intros H H'. rewrite H in H'.
  destruct o, o'. simpl in *. congruence.
Qed.

(** *** [start] *)

Lemma start_spawned (o : object) (p : Popen) :
  subprocess_Popen W (spawn_argv o) (spawn_env W o) (trace (sys o)) = Ok p ->
  start W o = start_poll W 30 0 (moved o (IsPopen p) [spawn_ev W o]).
Proof.
  intros Hp. destruct o as [s [h t]].
  unfold start, start_spawn, bind, try_except, get_self, in_sys, load, spawn,
    call, set_process, ret.
  unfold spawn_argv, spawn_env, extra_args in Hp. simpl in *.
  rewrite Hp. reflexivity.
Qed.

Lemma start_not_spawned (o : object) (e : exn) :
  subprocess_Popen W (spawn_argv o) (spawn_env W o) (trace (sys o))
  = Fails e ->
  start W o = start_except (self o) e (logged o [spawn_ev W o]).
Proof.
  intros Hp. destruct o as [s [h t]].
  unfold start, start_spawn, bind, try_except, get_self, in_sys, load, spawn,
    call, set_process, ret.
  unfold spawn_argv, spawn_env, extra_args in Hp. simpl in *.
  rewrite Hp. simpl.
  unfold start_except, raise.
  destruct e as [m|errno m|m|c m]; try reflexivity.
  repeat case_bool_decide; reflexivity.
Qed.

(** The handler of [start] raises, whatever it is given. *)
Lemma start_except_raises (s : Service) (e : exn) (o : object) :
  exists e', start_except s e o = (Raise e', o).
Proof.
  unfold start_except, raise.
  destruct e as [m|errno m|m|c m]; try (eexists; reflexivity).
  repeat case_bool_decide; eexists; reflexivity.
Qed.

Lemma start_frame (o : object) :
  exists v t, snd (start W o) = moved o v t /\ Forall (allowed W o) t.
Proof.
  destruct (subprocess_Popen W (spawn_argv o) (spawn_env W o) (trace (sys o)))
    as [p|e] eqn:Hp.
  - rewrite (start_spawned o p Hp).
    destruct (start_poll_frame 30 0 (moved o (IsPopen p) [spawn_ev W o]))
      as (t & Ht & Hpoll).
    exists (IsPopen p), ([spawn_ev W o] ++ t). rewrite Ht. split.
    + by rewrite logged_moved, moved_moved.
    + apply Forall_app. split; [by repeat constructor|].
      by apply poll_allowed.
  - rewrite (start_not_spawned o e Hp).
    destruct (start_except_raises (self o) e (logged o [spawn_ev W o]))
      as [e' He']. rewrite He'. simpl.
    exists (process (self o)), [spawn_ev W o]. split.
    + apply logged_moved.
    + by repeat constructor.
Qed.

Theorem start_ends (o : object) : fst (start W o) <> Running.
Proof.
  destruct (subprocess_Popen W (spawn_argv o) (spawn_env W o) (trace (sys o)))
    as [p|e] eqn:Hp.
  - rewrite (start_spawned o p Hp). apply start_poll_fuel; simpl; lia.
  - rewrite (start_not_spawned o e Hp).
    destruct (start_except_raises (self o) e (logged o [spawn_ev W o]))
      as [e' He']. by rewrite He'.
Qed.

(** *** [service_url] *)

Lemma service_url_spec (o : object) :
  service_url o = (Return ("http://localhost:" +:+ fmt_d (port (self o))), o).
Proof. reflexivity. Qed.

(** *** [stop] *)

Lemma stop_no_attribute (o : object) :
  process (self o) = NoAttribute ->
  stop W o =
  (Raise (AttributeError "'Service' object has no attribute 'process'"), o).
Proof.
  intros Hp. unfold stop, get_process, bind, get_self, raise. by rewrite Hp.
Qed.

Lemma stop_is_none (o : object) :
  process (self o) = IsNone -> stop W o = (Return tt, o).
Proof.
  intros Hp. unfold stop, get_process, bind, get_self, ret. by rewrite Hp.
Qed.

Lemma stop_request_fails (o : object) (p : Popen) (e : exn) :
  process (self o) = IsPopen p ->
  url_request_urlopen W (shutdown_url o) (trace (sys o)) = Fails e ->
  stop W o = (Raise e, logged o [urlopen_ev (shutdown_url o)]).
Proof.
  intros Hp Hu. destruct o as [s [h t]].
  unfold stop, get_process, bind, get_self, ret, in_sys, urlopen, call.
  unfold shutdown_url in *. simpl in *. rewrite Hp. simpl. by rewrite Hu.
Qed.

Lemma stop_request_ok (o : object) (p : Popen) :
  process (self o) = IsPopen p ->
  url_request_urlopen W (shutdown_url o) (trace (sys o)) = Ok tt ->
  stop W o =
  except_OSError_pass (stop_cleanup W)
    (snd (stop_poll W 31 0 (logged o [urlopen_ev (shutdown_url o)]))).
Proof.
  intros Hp Hu.
  pose proof (stop_poll_returns 31 0 (logged o [urlopen_ev (shutdown_url o)]))
    as Hr.
  destruct o as [s [h t]].
  unfold stop, get_process, bind, get_self, ret, in_sys, urlopen, call.
  unfold shutdown_url, logged in *. simpl in *. rewrite Hp. simpl.
  rewrite Hu. simpl.
  destruct (stop_poll W 31 0 _) as [r o']. simpl in *.
  rewrite Hr by lia. reflexivity.
Qed.

(** The forced cleanup when every call of it goes through. *)
Lemma stop_cleanup_ok (o : object) (p : Popen) :
  process (self o) = IsPopen p ->
  (forall t, stdout_close W p t = Ok tt) ->
  (forall t, stderr_close W p t = Ok tt) ->
  (forall t, Popen_kill W p t = Ok tt) ->
  (forall t, Popen_wait W p t = Ok tt) ->
  except_OSError_pass (stop_cleanup W) o
  = (Return tt, logged o (cleanup_of p)).
Proof.
  intros Hp H1 H2 H3 H4. destruct o as [s [h t]].
  unfold except_OSError_pass, stop_cleanup, get_process, bind, get_self, ret,
    in_sys, call, logged, cleanup_of.
  simpl in *. rewrite Hp. simpl. rewrite H1. simpl. rewrite H2. simpl.
  rewrite H3. simpl. rewrite H4. simpl.
  by rewrite <- !app_assoc.
Qed.

(** [kill] not being there, an [OSError], is passed over: [stop] is done
    without waiting for the process. *)
Lemma stop_cleanup_kill_missing (o : object) (p : Popen) (errno : option Z)
    (m : string) :
  process (self o) = IsPopen p ->
  (forall t, stdout_close W p t = Ok tt) ->
  (forall t, stderr_close W p t = Ok tt) ->
  (forall t, Popen_kill W p t = Fails (OSError errno m)) ->
  except_OSError_pass (stop_cleanup W) o
  = (Return tt, logged o [stdout_close_ev p; stderr_close_ev p; kill_ev p]).
Proof.
  intros Hp H1 H2 H3. destruct o as [s [h t]].
  unfold except_OSError_pass, stop_cleanup, get_process, bind, get_self, ret,
    in_sys, call, logged.
  simpl in *. rewrite Hp. simpl. rewrite H1. simpl. rewrite H2. simpl.
  rewrite H3. simpl. by rewrite <- !app_assoc.
Qed.

(** Any other error of the cleanup comes out of [stop]. *)
Lemma stop_cleanup_other_error (o : object) (p : Popen) (c m : string) :
  process (self o) = IsPopen p ->
  stdout_close W p (trace (sys o)) = Fails (OtherError c m) ->
  except_OSError_pass (stop_cleanup W) o
  = (Raise (OtherError c m), logged o [stdout_close_ev p]).
Proof.
  intros Hp H1. destruct o as [s [h t]].
  unfold except_OSError_pass, stop_cleanup, get_process, bind, get_self, ret,
    in_sys, call, logged.
  simpl in *. rewrite Hp. simpl. by rewrite H1.
Qed.

(** Whatever its calls answer, the cleanup only closes, kills and waits. *)
Lemma stop_cleanup_frame (o : object) :
  exists t, snd (except_OSError_pass (stop_cleanup W) o) = logged o t
            /\ Forall (fun e => is_cleanup e = true) t.
Proof.
  destruct o as [s [h t]].
  unfold except_OSError_pass, stop_cleanup, get_process, bind, get_self, ret,
    raise, in_sys, call, logged.
  simpl. destruct (process s) as [| |p]; simpl.
  - exists []. by rewrite app_nil_r.
  - exists []. by rewrite app_nil_r.
  - destruct (stdout_close W p t) as [[]|e1]; simpl.
    2: { exists [stdout_close_ev p].
         split; [by destruct e1|by repeat constructor]. }
    destruct (stderr_close W p _) as [[]|e2]; simpl.
    2: { exists [stdout_close_ev p; stderr_close_ev p].
         rewrite <- !app_assoc.
         split; [by destruct e2|by repeat constructor]. }
    destruct (Popen_kill W p _) as [[]|e3]; simpl.
    2: { exists [stdout_close_ev p; stderr_close_ev p; kill_ev p].
         rewrite <- !app_assoc.
         split; [by destruct e3|by repeat constructor]. }
    exists (cleanup_of p). unfold cleanup_of. rewrite <- !app_assoc.
    split; [|by repeat constructor].
    by destruct (Popen_wait W p _) as [[]|[]].
Qed.

Lemma stop_frame (o : object) :
  exists t, snd (stop W o) = logged o t /\ Forall (allowed W o) t.
Proof.
  destruct (process (self o)) as [| |p] eqn:Hp.
  - rewrite stop_no_attribute by done. exists []. by rewrite logged_nil.
  - rewrite stop_is_none by done. exists []. by rewrite logged_nil.
  - destruct (url_request_urlopen W (shutdown_url o) (trace (sys o)))
      as [[]|e] eqn:Hu.
    + rewrite (stop_request_ok o p Hp Hu).
      destruct (stop_poll_frame 31 0 (logged o [urlopen_ev (shutdown_url o)]))
        as (t1 & Ht1 & Hpoll).
      rewrite Ht1.
      destruct (stop_cleanup_frame
                  (logged (logged o [urlopen_ev (shutdown_url o)]) t1))
        as (t2 & Ht2 & Hc).
      rewrite Ht2, !logged_logged. eexists. split; [reflexivity|].
      repeat (apply Forall_app; split).
      * by repeat constructor.
      * by apply poll_allowed.
      * eapply Forall_impl; [exact Hc|]. intros e He. by destruct e.
    + rewrite (stop_request_fails o p e Hp Hu). eexists.
      split; [reflexivity|]. by repeat constructor.
Qed.

Theorem stop_ends (o : object) : fst (stop W o) <> Running.
Proof.
  destruct (process (self o)) as [| |p] eqn:Hp.
  - by rewrite stop_no_attribute.
  - by rewrite stop_is_none.
  - destruct (url_request_urlopen W (shutdown_url o) (trace (sys o)))
      as [[]|e] eqn:Hu.
    + rewrite (stop_request_ok o p Hp Hu).
      destruct (snd (stop_poll W 31 0 _)) as [s [h t]].
      unfold except_OSError_pass, stop_cleanup, get_process, bind, get_self,
        ret, raise, in_sys, call.
      simpl. destruct (process s) as [| |q]; simpl; try done.
      destruct (stdout_close W q t) as [[]|[]]; simpl; try done.
      destruct (stderr_close W q _) as [[]|[]]; simpl; try done.
      destruct (Popen_kill W q _) as [[]|[]]; simpl; try done.
      destruct (Popen_wait W q _) as [[]|[]]; simpl; done.
    + by rewrite (stop_request_fails o p e Hp Hu).
Qed.

(** *** A whole life *)

Lemma invoke_frame (m : method) (o : object) :
  exists v t, invoke W m o = moved o v t /\ Forall (allowed W o) t.
Proof.
  destruct m; simpl.
  - apply start_frame.
  - exists (process (self o)), []. by rewrite moved_same.
  - destruct (stop_frame o) as (t & Ht & Ha).
    exists (process (self o)), t. by rewrite Ht, logged_moved.
Qed.

Lemma lifetime_frame (ms : list method) :
  forall o : object,
    exists v t, lifetime W ms o = moved o v t /\ Forall (allowed W o) t.
Proof.
  induction ms as [|m ms IH]; intros o.
  - exists (process (self o)), []. by rewrite moved_same.
  - simpl. destruct (invoke_frame m o) as (v1 & t1 & H1 & A1).
    destruct (IH (invoke W m o)) as (v2 & t2 & H2 & A2).
    rewrite H1 in H2, A2. rewrite moved_moved in H2.
    exists v2, (t1 ++ t2). split; [by rewrite H1|].
    apply Forall_app. split; [exact A1|exact A2].
Qed.

End Lifecycle.

(** ** The sample instance *)

Lemma sample_constructed (W : World) :
  utils_free_port W [] = 49152 ->
  constructed W "/usr/local/bin/chromedriver" default_port (Some 0%nat)
    (Some "/tmp/chromedriver.log") None boot sample.
Proof.
  intros Hf. unfold constructed, __init__, bind, free_port, call. simpl.
  by rewrite Hf.
Qed.

Lemma sample_constructed_driver :
  constructed driver_world "/usr/local/bin/chromedriver" default_port
    (Some 0%nat) (Some "/tmp/chromedriver.log") None boot sample.
Proof. by apply sample_constructed. Qed.

(** ** Properties of the life cycle *)

(** C1, as the code has it: [__init__] does not assign [self.process], so
    on every instance that is constructed and not yet started, [stop()]
    raises [AttributeError] at its first line, [if self.process is None],
    instead of returning. *)
Theorem stop_before_start_raises (W : World) (executable_path : string)
    (n : Z) (sa : option loc) (lp : option string) (e : option environ)
    (y : system) :
  exists o : object,
    constructed W executable_path n sa lp e y o
    /\ stop W o =
       (Raise (AttributeError "'Service' object has no attribute 'process'"),
        o).
Proof.
  destruct (init_spec W executable_path n sa lp e y)
    as (o & Ho & _ & _ & _ & Hp & _).
  exists o. split; [exact Ho|]. by apply stop_no_attribute.
Qed.

(** The guard of [stop] does what it is there for once the attribute is
    bound to [None]. *)
Lemma stop_on_none_returns (W : World) (o : object) (es : list event) :
  stop W (moved o IsNone es) = (Return tt, moved o IsNone es).
Proof. by apply stop_is_none. Qed.

(** After a [start()] that returned, the process handle is set. *)
Lemma start_returned_handle (W : World) (o : object) :
  fst (start W o) = Return tt ->
  exists p t, snd (start W o) = moved o (IsPopen p) t.
Proof.
  intros Hr.
  destruct (subprocess_Popen W (spawn_argv o) (spawn_env W o) (trace (sys o)))
    as [p|e] eqn:Hp.
  - rewrite (start_spawned W o p Hp).
    destruct (start_poll_frame W 30 0 (moved o (IsPopen p) [spawn_ev W o]))
      as (t & Ht & _).
    exists p, ([spawn_ev W o] ++ t).
    by rewrite Ht, logged_moved, moved_moved.
  - rewrite (start_not_spawned W o e Hp) in Hr.
    destruct (start_except_raises (self o) e (logged o [spawn_ev W o]))
      as [e' He']. by rewrite He' in Hr.
Qed.

Lemma drop_trace_logged (o : object) (es : list event) :
  drop (length (trace (sys o))) (trace (sys (logged o es))) = es.
Proof. simpl. by rewrite drop_app_length. Qed.

(** The two courses of [stop()] after a [start()] that returned: if the
    GET of [/shutdown] raises, [stop()] raises that error after the request
    and does nothing else (no stream is closed, no signal sent, no wait);
    if the GET returns and none of the cleanup calls raises, [stop()]
    returns after the request, the polling of the port, and then closing
    stdout, closing stderr, the kill and the wait, in this order, whatever
    the polling saw. *)
Theorem stop_forced_cleanup (W : World) (o : object) :
  fst (start W o) = Return tt ->
  let o1 := snd (start W o) in
  exists p : Popen,
    process (self o1) = IsPopen p
    /\ (forall e : exn,
          url_request_urlopen W (shutdown_url o1) (trace (sys o1)) = Fails e ->
          stop W o1 = (Raise e, logged o1 [urlopen_ev (shutdown_url o1)])
          /\ cleanup_done W o1 = [])
    /\ (url_request_urlopen W (shutdown_url o1) (trace (sys o1)) = Ok tt ->
        (forall t, stdout_close W p t = Ok tt) ->
        (forall t, stderr_close W p t = Ok tt) ->
        (forall t, Popen_kill W p t = Ok tt) ->
        (forall t, Popen_wait W p t = Ok tt) ->
        (exists polls : list event,
           Forall (fun ev => is_poll ev = true) polls
           /\ stop W o1 =
              (Return tt,
               logged o1
                 ([urlopen_ev (shutdown_url o1)] ++ polls ++ cleanup_of p)))
        /\ cleanup_done W o1 = cleanup_of p).
Proof.
  intros Hr o1. destruct (start_returned_handle W o Hr) as (p & t & Ho1).
  exists p. subst o1. split; [by rewrite Ho1|]. split.
  - intros e He. rewrite (stop_request_fails W _ p e); [|by rewrite Ho1|done].
    split; [done|]. unfold cleanup_done.
    rewrite (stop_request_fails W _ p e); [|by rewrite Ho1|done].
    cbn [snd]. by rewrite drop_trace_logged.
  - intros Hu H1 H2 H3 H4.
    assert (Hs : exists polls : list event,
               Forall (fun ev => is_poll ev = true) polls
               /\ stop W (snd (start W o)) =
                  (Return tt,
                   logged (snd (start W o))
                     ([urlopen_ev (shutdown_url (snd (start W o)))]
                        ++ polls ++ cleanup_of p))).
    { rewrite (stop_request_ok W _ p); [|by rewrite Ho1|done].
      destruct (stop_poll_frame W 31 0
                  (logged (snd (start W o))
                     [urlopen_ev (shutdown_url (snd (start W o)))]))
        as (polls & Hpolls & Hpoll).
      exists polls. split; [exact Hpoll|].
      rewrite Hpolls, (stop_cleanup_ok W _ p); try done.
      - by rewrite !logged_logged.
      - by rewrite Ho1. }
    split; [exact Hs|].
    destruct Hs as (polls & Hpoll & Hs). unfold cleanup_done.
    rewrite Hs. cbn [snd]. rewrite drop_trace_logged. simpl.
    rewrite List.filter_app.
    replace (List.filter is_cleanup polls) with (@nil event); [done|].
    clear -Hpoll. induction Hpoll as [|ev l Hev _ IH]; [done|].
    simpl. destruct ev; try done; exact IH.
Qed.

(** Both courses at work: on the machine whose shutdown request fails
    the error comes out of [stop()], and on the machine with a working
    driver the cleanup is made. *)
Lemma stop_forced_cleanup_witness :
  (stop stubborn_world (snd (start stubborn_world sample)) =
   (Raise (OtherError "HTTPError" "HTTP Error 404: Not Found"),
    logged (snd (start stubborn_world sample))
      [urlopen_ev "http://127.0.0.1:49152/shutdown"])
   /\ cleanup_done stubborn_world (snd (start stubborn_world sample)) = [])
  /\ cleanup_done driver_world (snd (start driver_world sample))
     = cleanup_of {| pid := 4242 |}.
Proof.
  split.
  - destruct (stop_forced_cleanup stubborn_world sample)
      as (p & Hp & Hfails & _); [by vm_compute|].
    apply Hfails. by vm_compute.
  - destruct (stop_forced_cleanup driver_world sample)
      as (p & Hp & _ & Hok); [by vm_compute|].
    vm_compute in Hp. injection Hp as <-.
    apply Hok; by vm_compute.
Defined.

(** C2, as the code has it: on the machine whose driver listens and
    whose shutdown request fails, [start()] returns and binds the process,
    and the [stop()] that follows raises the error of the request right
    after it: the request is its only call, so neither stream is closed,
    no signal is sent and the process is not waited on, although [stop]
    is documented to clean up the process and does so when the polling
    times out. *)
Theorem stop_request_error_skips_cleanup :
  let o1 := snd (start stubborn_world sample) in
  fst (start stubborn_world sample) = Return tt
  /\ process (self o1) = IsPopen {| pid := 4242 |}
  /\ fst (stop stubborn_world o1)
     = Raise (OtherError "HTTPError" "HTTP Error 404: Not Found")
  /\ stop_events stubborn_world o1
     = [urlopen_ev "http://127.0.0.1:49152/shutdown"]
  /\ cleanup_done stubborn_world o1 = []
  /\ cleanup_done stubborn_world o1 <> cleanup_of {| pid := 4242 |}.
Proof. by vm_compute. Qed.

(** C3: once the process is spawned, if the port never accepts a
    connection [start()] raises the [WebDriverException] "Can not connect to
    the '<base name>'" after 30 rounds of one connection attempt and one
    sleep, 30 attempts in all; if the port accepts the first attempt,
    [start()] returns after that single attempt.  Either way the spawned
    process is bound to [self.process]. *)
Theorem start_readiness (W : World) (o : object) (p : Popen) :
  subprocess_Popen W (spawn_argv o) (spawn_env W o) (trace (sys o)) = Ok p ->
  ((forall t, utils_is_connectable W (port (self o)) t = false) ->
   start W o =
   (Raise (WebDriverException
             ("Can not connect to the '" +:+ basename (path (self o)) +:+ "'")),
    moved o (IsPopen p) (spawn_ev W o :: rounds 30 (port (self o))))
   /\ attempts (trace (sys (snd (start W o))))
      = (attempts (trace (sys o)) + 30)%nat)
  /\ (utils_is_connectable W (port (self o)) (trace (sys o) ++ [spawn_ev W o])
      = true ->
      start W o =
      (Return tt,
       moved o (IsPopen p) [spawn_ev W o; is_connectable_ev (port (self o))])
      /\ attempts (trace (sys (snd (start W o))))
         = (attempts (trace (sys o)) + 1)%nat).
Proof.
  intros Hp. rewrite (start_spawned W o p Hp). split.
  - intros Hclosed.
    rewrite (start_poll_closed W 29 30 0); [|exact Hclosed|lia|lia].
    rewrite logged_moved, moved_moved. split; [reflexivity|].
    cbn [snd moved sys trace]. rewrite attempts_app.
    change (spawn_ev W o :: rounds 30 (port (self o)))
      with ([spawn_ev W o] ++ rounds 30 (port (self o))).
    by rewrite attempts_app, attempts_rounds.
  - intros Hopen.
    change 30%nat with (S 29). rewrite start_poll_S.
    cbn [moved self sys trace with_process port]. rewrite Hopen.
    split; [by rewrite logged_moved, moved_moved|].
    cbn [snd logged moved sys trace]. by rewrite <- app_assoc, attempts_app.
Qed.

Lemma start_readiness_witness :
  fst (start deaf_world sample)
  = Raise (WebDriverException "Can not connect to the 'chromedriver'")
  /\ attempts (trace (sys (snd (start deaf_world sample)))) = 30%nat
  /\ fst (start driver_world sample) = Return tt
  /\ attempts (trace (sys (snd (start driver_world sample)))) = 1%nat.
Proof.
  destruct (start_readiness deaf_world sample {| pid := 4242 |})
    as [Hclosed _]; [by vm_compute|].
  destruct Hclosed as [Hr Hn]; [done|].
  destruct (start_readiness driver_world sample {| pid := 4242 |})
    as [_ Hopen]; [by vm_compute|].
  destruct Hopen as [Hr' Hn']; [by vm_compute|].
  rewrite Hr, Hr'. split; [done|]. split; [exact Hn|].
  split; [done|]. rewrite Hr' in Hn'. exact Hn'.
Defined.

(** C4 as it was stated fails: on the machine whose driver never opens
    its port [start()] raises, and the process handle is there all the
    same. *)
Lemma handle_iff_started_counterexample :
  ~ (has_process (snd (start deaf_world sample)) = true
     <-> fst (start deaf_world sample) = Return tt).
Proof.
  intros [Hstarted _]. assert (H := Hstarted ltac:(by vm_compute)).
  vm_compute in H. discriminate H.
Qed.

(** C4, amended: a constructed instance has no process handle; a
    [start()] on it whose spawn succeeds binds the spawned process,
    whether the readiness polling then succeeds or [start()] raises
    because the port stays closed; a [start()] whose spawn fails leaves
    the instance without a handle.  So after [start()] the handle is
    present if and only if the spawn went through. *)
Theorem handle_iff_spawned (W : World) (executable_path : string) (n : Z)
    (sa : option loc) (lp : option string) (e : option environ) (y : system) :
  exists o : object,
    constructed W executable_path n sa lp e y o
    /\ has_process o = false
    /\ (forall p,
          subprocess_Popen W (spawn_argv o) (spawn_env W o) (trace (sys o))
          = Ok p ->
          process (self (snd (start W o))) = IsPopen p
          /\ (fst (start W o) = Return tt
              \/ fst (start W o)
                 = Raise (WebDriverException
                            ("Can not connect to the '"
                               +:+ basename executable_path +:+ "'"))))
    /\ (forall err,
          subprocess_Popen W (spawn_argv o) (spawn_env W o) (trace (sys o))
          = Fails err ->
          process (self (snd (start W o))) = NoAttribute
          /\ exists err', fst (start W o) = Raise err')
    /\ (has_process (snd (start W o)) = true
        <-> exists p,
              subprocess_Popen W (spawn_argv o) (spawn_env W o)
                (trace (sys o)) = Ok p).
Proof.
  destruct (init_spec W executable_path n sa lp e y)
    as (o & Ho & Hpath & _ & _ & Hslot & _).
  exists o. split; [exact Ho|]. unfold has_process at 1. rewrite Hslot.
  split; [reflexivity|].
  assert (Hok : forall p,
             subprocess_Popen W (spawn_argv o) (spawn_env W o) (trace (sys o))
             = Ok p ->
             process (self (snd (start W o))) = IsPopen p
             /\ (fst (start W o) = Return tt
                 \/ fst (start W o)
                    = Raise (WebDriverException
                               ("Can not connect to the '"
                                  +:+ basename executable_path +:+ "'")))).
  { intros p Hp. rewrite (start_spawned W o p Hp). split.
    - destruct (start_poll_frame W 30 0 (moved o (IsPopen p) [spawn_ev W o]))
        as (t & Ht & _). by rewrite Ht.
    - rewrite <- Hpath.
      apply (start_poll_outcome W 30 0 (moved o (IsPopen p) [spawn_ev W o]));
        lia. }
  assert (Hfails : forall err,
             subprocess_Popen W (spawn_argv o) (spawn_env W o) (trace (sys o))
             = Fails err ->
             process (self (snd (start W o))) = NoAttribute
             /\ exists err', fst (start W o) = Raise err').
  { intros err Hp. rewrite (start_not_spawned W o err Hp).
    destruct (start_except_raises (self o) err (logged o [spawn_ev W o]))
      as [e' He']. rewrite He'. split; [exact Hslot|by exists e']. }
  split; [exact Hok|]. split; [exact Hfails|].
  unfold has_process.
  destruct (subprocess_Popen W (spawn_argv o) (spawn_env W o) (trace (sys o)))
    as [p|err] eqn:Hp.
  - destruct (Hok p eq_refl) as [-> _]. split; [|done]. intros _. by exists p.
  - destruct (Hfails err eq_refl) as [-> _]. split; [done|].
    by intros [p Habs].
Qed.

Lemma handle_iff_spawned_witness :
  (fst (start deaf_world sample)
   = Raise (WebDriverException "Can not connect to the 'chromedriver'")
   /\ process (self (snd (start deaf_world sample)))
      = IsPopen {| pid := 4242 |})
  /\ (fst (start driver_world sample) = Return tt
      /\ process (self (snd (start driver_world sample)))
         = IsPopen {| pid := 4242 |})
  /\ process
       (self (snd (start (broken_world (OSError (Some 13) "Permission denied"))
                     sample)))
     = NoAttribute.
Proof.
  split; [|split].
  - destruct (handle_iff_spawned deaf_world "/usr/local/bin/chromedriver"
                default_port (Some 0%nat) (Some "/tmp/chromedriver.log") None
                boot)
      as (o & Ho & _ & Hok & _).
    rewrite (constructed_inj deaf_world _ _ _ _ _ _ o sample Ho
               (sample_constructed deaf_world eq_refl)) in Hok.
    destruct (Hok {| pid := 4242 |}) as [Hp _]; [vm_compute; reflexivity|].
    split; [vm_compute; reflexivity|exact Hp].
  - destruct (handle_iff_spawned driver_world "/usr/local/bin/chromedriver"
                default_port (Some 0%nat) (Some "/tmp/chromedriver.log") None
                boot)
      as (o & Ho & _ & Hok & _).
    rewrite (constructed_inj driver_world _ _ _ _ _ _ o sample Ho
               (sample_constructed driver_world eq_refl)) in Hok.
    destruct (Hok {| pid := 4242 |}) as [Hp _]; [vm_compute; reflexivity|].
    split; [vm_compute; reflexivity|exact Hp].
  - destruct (handle_iff_spawned
                (broken_world (OSError (Some 13) "Permission denied"))
                "/usr/local/bin/chromedriver" default_port (Some 0%nat)
                (Some "/tmp/chromedriver.log") None boot)
      as (o & Ho & _ & _ & Hfails & _).
    rewrite (constructed_inj _ _ _ _ _ _ _ o sample Ho
               (sample_constructed
                  (broken_world (OSError (Some 13) "Permission denied"))
                  eq_refl)) in Hfails.
    destruct (Hfails (OSError (Some 13) "Permission denied")) as [Hp _];
      [vm_compute; reflexivity|exact Hp].
Defined.

(** C5: when the spawn fails, [start()] stops there (no process handle, no
    polling) and raises: for an [OSError] with [errno.ENOENT] the
    [WebDriverException] "'<base name>' executable needs to be in PATH.
    Please see <documentation>", for an [OSError] with [errno.EACCES] the
    [WebDriverException] "'<base name>' executable may have wrong
    permissions. Please see <documentation>", and for anything else the
    very exception it got. *)
Theorem start_spawn_failure (W : World) (o : object) (e : exn) :
  subprocess_Popen W (spawn_argv o) (spawn_env W o) (trace (sys o))
  = Fails e ->
  snd (start W o) = logged o [spawn_ev W o]
  /\ (forall m, e = OSError (Some ENOENT) m ->
        fst (start W o) =
        Raise (WebDriverException
                 ("'" +:+ basename (path (self o))
                      +:+ "' executable needs to be in PATH. "
                      +:+ "Please see https://sites.google.com/a/chromium.org/chromedriver/home")))
  /\ (forall m, e = OSError (Some EACCES) m ->
        fst (start W o) =
        Raise (WebDriverException
                 ("'" +:+ basename (path (self o))
                      +:+ "' executable may have wrong permissions. "
                      +:+ "Please see https://sites.google.com/a/chromium.org/chromedriver/home")))
  /\ ((forall m, e <> OSError (Some ENOENT) m) ->
      (forall m, e <> OSError (Some EACCES) m) ->
      fst (start W o) = Raise e).
Proof.
  intros Hp. rewrite (start_not_spawned W o e Hp). split.
  - destruct (start_except_raises (self o) e (logged o [spawn_ev W o]))
      as [e' He']. by rewrite He'.
  - split; [|split].
    + intros m ->. reflexivity.
    + intros m ->. reflexivity.
    + intros Hne1 Hne2. unfold start_except, raise.
      destruct e as [m|errno m|m|c m]; try reflexivity.
      repeat case_bool_decide; subst; try reflexivity.
      * by destruct (Hne1 m).
      * by destruct (Hne2 m).
Qed.

Lemma start_spawn_failure_witness :
  fst (start (broken_world (OSError (Some 2) "No such file or directory"))
         sample)
  = Raise (WebDriverException
             "'chromedriver' executable needs to be in PATH. Please see https://sites.google.com/a/chromium.org/chromedriver/home")
  /\ fst (start (broken_world (OSError (Some 13) "Permission denied")) sample)
     = Raise (WebDriverException
                "'chromedriver' executable may have wrong permissions. Please see https://sites.google.com/a/chromium.org/chromedriver/home")
  /\ fst (start (broken_world (OSError (Some 12) "Cannot allocate memory"))
            sample)
     = Raise (OSError (Some 12) "Cannot allocate memory")
  /\ has_process
       (snd (start (broken_world (OSError (Some 2) "No such file or directory"))
               sample)) = false.
Proof.
  destruct (start_spawn_failure
              (broken_world (OSError (Some 2) "No such file or directory"))
              sample (OSError (Some 2) "No such file or directory"))
    as (Hs & H1 & _ & _); [by vm_compute|].
  destruct (start_spawn_failure
              (broken_world (OSError (Some 13) "Permission denied"))
              sample (OSError (Some 13) "Permission denied"))
    as (_ & _ & H2 & _); [by vm_compute|].
  destruct (start_spawn_failure
              (broken_world (OSError (Some 12) "Cannot allocate memory"))
              sample (OSError (Some 12) "Cannot allocate memory"))
    as (_ & _ & _ & H3); [by vm_compute|].
  split; [exact (H1 _ eq_refl)|]. split; [exact (H2 _ eq_refl)|].
  split; [by apply H3|]. by rewrite Hs.
Defined.

(** The first thing [start()] does is the spawn. *)
Lemma start_spawns (W : World) (o : object) :
  exists rest,
    trace (sys (snd (start W o))) = trace (sys o) ++ spawn_ev W o :: rest.
Proof.
  destruct (subprocess_Popen W (spawn_argv o) (spawn_env W o) (trace (sys o)))
    as [p|e] eqn:Hp.
  - rewrite (start_spawned W o p Hp).
    destruct (start_poll_frame W 30 0 (moved o (IsPopen p) [spawn_ev W o]))
      as (t & Ht & _).
    exists t. rewrite Ht. simpl. by rewrite <- app_assoc.
  - rewrite (start_not_spawned W o e Hp).
    destruct (start_except_raises (self o) e (logged o [spawn_ev W o]))
      as [e' He']. rewrite He'. by exists [].
Qed.

Lemma log_entry_path (c : Ascii.ascii) (r : string) :
  log_entry (Some (String c r)) = ["--log-path=" +:+ String c r].
Proof. reflexivity. Qed.

Lemma log_entry_empty : log_entry (Some "") = [] /\ log_entry None = [].
Proof. by split. Qed.

(** C6: for every constructed instance, the argument list of the spawn is
    the executable path, [--port=] followed by the port in decimal
    digits, the extra arguments as they were
    at construction, and then, for a log path, the one entry
    [--log-path=<path>]; however many times [start], [service_url] and
    [stop] have been called, every spawn so far was made with that list
    and the next [start()] spawns with it again.  (A [log_path] that is
    the empty string counts as none, like [None].) *)
Theorem spawn_argument_vector (W : World) (executable_path : string) (n : Z)
    (sa : option loc) (lp : option string) (e : option environ) (y : system)
    (ms : list method) :
  exists o : object,
    constructed W executable_path n sa lp e y o
    /\ let logging :=
         match lp with
         | Some (String c r) => ["--log-path=" +:+ String c r]
         | _ => []
         end in
       let v :=
         [executable_path; "--port=" +:+ pretty (port (self o))]
           ++ supplied y sa ++ logging in
       let o' := lifetime W ms o in
       (exists t, trace (sys o') = trace (sys o) ++ t
                  /\ Forall (spawns_with v) t)
       /\ (exists m rest,
             trace (sys (snd (start W o')))
             = trace (sys o') ++ Popen_ev v m :: rest).
Proof.
  destruct (init_spec W executable_path n sa lp e y)
    as (o & Ho & Hpath & _ & _ & _ & _ & Hargs).
  exists o. split; [exact Ho|]. intros logging v o'.
  assert (Hv : spawn_argv o = v).
  { unfold spawn_argv, argv. rewrite Hargs, Hpath. subst v logging.
    by destruct lp as [[|c r]|]. }
  destruct (lifetime_frame W ms o) as (slot' & t & Ho' & Ht).
  subst o'. split.
  - exists t. rewrite Ho'. split; [reflexivity|].
    eapply Forall_impl; [exact Ht|]. intros ev Hev.
    destruct ev; try done. simpl in *. destruct Hev as [-> _]. exact Hv.
  - destruct (start_spawns W (lifetime W ms o)) as [rest Hrest].
    exists (spawn_env W (lifetime W ms o)), rest. rewrite Hrest.
    unfold spawn_ev. by rewrite Ho', spawn_argv_moved, Hv.
Qed.

Lemma spawn_argument_vector_witness :
  let o' := lifetime driver_world [call_start; call_service_url; call_stop]
              sample in
  exists (m : environ) (rest : list event),
    trace (sys (snd (start driver_world o')))
    = trace (sys o')
        ++ Popen_ev
             ["/usr/local/bin/chromedriver"; "--port=49152"; "--verbose";
              "--log-path=/tmp/chromedriver.log"] m
        :: rest.
Proof.
  destruct (spawn_argument_vector driver_world "/usr/local/bin/chromedriver"
              default_port (Some 0%nat) (Some "/tmp/chromedriver.log") None
              boot [call_start; call_service_url; call_stop])
    as (o & Ho & _ & Hnext).
  rewrite (constructed_inj driver_world _ _ _ _ _ _ o sample Ho
             (sample_constructed driver_world eq_refl)) in Hnext.
  exact Hnext.
Defined.

(** C7: an instance constructed with port [0] (the default) takes the
    answer of the one [free_port()] call that [__init__] makes, and
    whatever is called on it afterwards, its port stays that value and
    [free_port()] is not called again. *)
Theorem port_resolved_once (W : World) (executable_path : string)
    (sa : option loc) (lp : option string) (e : option environ) (y : system)
    (ms : list method) :
  exists o : object,
    constructed W executable_path default_port sa lp e y o
    /\ port (self o) = utils_free_port W (trace y)
    /\ trace (sys o) = trace y ++ [free_port_ev]
    /\ let o' := lifetime W ms o in
       port (self o') = port (self o)
       /\ exists t, trace (sys o') = trace (sys o) ++ t
                    /\ Forall (fun ev => is_free_port ev = false) t.
Proof.
  destruct (init_spec W executable_path default_port sa lp e y)
    as (o & Ho & _ & Hport & _ & _ & Htrace & _).
  exists o. split; [exact Ho|]. split; [exact Hport|].
  split; [exact Htrace|]. intros o'.
  destruct (lifetime_frame W ms o) as (slot' & t & Ho' & Ht).
  subst o'. rewrite Ho'. split; [reflexivity|].
  exists t. split; [reflexivity|].
  eapply Forall_impl; [exact Ht|]. intros ev Hev. by destruct ev.
Qed.

(** X10: a port given as a number other than [0] is kept as it is, and
    the constructor makes no call into the world: [free_port()] is not
    called at all. *)
Lemma port_given (W : World) (executable_path : string) (n : Z)
    (sa : option loc) (lp : option string) (e : option environ) (y : system) :
  n <> 0 ->
  exists o : object,
    constructed W executable_path n sa lp e y o
    /\ port (self o) = n /\ trace (sys o) = trace y.
Proof.
  intros Hn.
  destruct (init_spec W executable_path n sa lp e y)
    as (o & Ho & _ & Hport & _ & _ & Htrace & _).
  exists o. split; [exact Ho|]. unfold resolved in Hport.
  destruct (n =? 0) eqn:E; [lia|]. by rewrite app_nil_r in Htrace.
Qed.

(** [stop()] never changes the instance: in particular the process
    handle it found is still there when it is done. *)
Lemma stop_keeps_instance (W : World) (o : object) :
  self (snd (stop W o)) = self o.
Proof. destruct (stop_frame W o) as (t & Ht & _). by rewrite Ht. Qed.

(** So a second [stop()] sends the shutdown request again, and raises
    when that request does. *)
Lemma stop_again (W : World) (o : object) (p : Popen) (e : exn) :
  process (self o) = IsPopen p ->
  let o' := snd (stop W o) in
  url_request_urlopen W (shutdown_url o') (trace (sys o')) = Fails e ->
  fst (stop W o') = Raise e.
Proof.
  intros Hp o' Hu.
  rewrite (stop_request_fails W o' p e); [done| |done].
  subst o'. by rewrite stop_keeps_instance.
Qed.

(** C8, as the code has it: on the machine with a working driver,
    [start()] returns and the first [stop()] returns, having shut the
    driver down, closed its streams, killed it and waited for it; the
    second [stop()] finds the same process handle, requests [/shutdown]
    from the driver that is gone, and raises the error of that request. *)
Theorem second_stop_raises :
  let o1 := snd (start driver_world sample) in
  let o2 := snd (stop driver_world o1) in
  fst (start driver_world sample) = Return tt
  /\ fst (stop driver_world o1) = Return tt
  /\ cleanup_done driver_world o1 = cleanup_of {| pid := 4242 |}
  /\ self o2 = self o1
  /\ fst (stop driver_world o2) = Raise connection_refused.
Proof. by vm_compute. Qed.

(** C9: for every constructed instance, at any point of its life (before
    [start], after a [start] that raised or returned, after [stop]),
    [service_url] returns "http://localhost:" followed by the decimal
    digits of the port fixed at construction, and touches nothing. *)
Theorem service_url_value (W : World) (executable_path : string) (n : Z)
    (sa : option loc) (lp : option string) (e : option environ) (y : system)
    (ms : list method) :
  exists o : object,
    constructed W executable_path n sa lp e y o
    /\ port (self o) = (if n =? 0 then utils_free_port W (trace y) else n)
    /\ let o' := lifetime W ms o in
       service_url o' =
       (Return ("http://localhost:" +:+ pretty (port (self o))), o').
Proof.
  destruct (init_spec W executable_path n sa lp e y)
    as (o & Ho & _ & Hport & _).
  exists o. split; [exact Ho|]. split; [exact Hport|]. intros o'.
  destruct (lifetime_frame W ms o) as (slot' & t & Ho' & _).
  subst o'. rewrite service_url_spec, Ho'. reflexivity.
Qed.

(** C10: the spawn of [start()] gets the environment of the current
    process when [env] is [None] or an empty mapping, and the mapping
    itself when it is not empty. *)
Theorem start_environment (W : World) (o : object) :
  exists (m : environ) (rest : list event),
    trace (sys (snd (start W o)))
    = trace (sys o) ++ Popen_ev (spawn_argv o) m :: rest
    /\ (env (self o) = None -> m = os_environ W)
    /\ (env (self o) = Some ∅ -> m = os_environ W)
    /\ (forall given : environ,
          env (self o) = Some given -> given <> ∅ -> m = given).
Proof.
  destruct (start_spawns W o) as [rest Hrest].
  exists (spawn_env W o), rest. split; [exact Hrest|].
  unfold spawn_env, env_or_os_environ. split; [|split].
  - by intros ->.
  - by intros ->.
  - intros given -> Hne. by case_bool_decide.
Qed.

Lemma start_environment_witness :
  (exists rest,
     trace (sys (snd (start driver_world (sample_with_env None))))
     = [free_port_ev;
        Popen_ev (spawn_argv sample) (os_environ driver_world)] ++ rest)
  /\ (exists rest,
        trace (sys (snd (start driver_world (sample_with_env (Some ∅)))))
        = [free_port_ev;
           Popen_ev (spawn_argv sample) (os_environ driver_world)] ++ rest)
  /\ (exists rest,
        trace (sys (snd (start driver_world (sample_with_env (Some display)))))
        = [free_port_ev; Popen_ev (spawn_argv sample) display] ++ rest).
Proof.
  split; [|split].
  - destruct (start_environment driver_world (sample_with_env None))
      as (m & rest & Ht & Hnone & _ & _).
    exists rest. rewrite Ht, Hnone; done.
  - destruct (start_environment driver_world (sample_with_env (Some ∅)))
      as (m & rest & Ht & _ & Hempty & _).
    exists rest. rewrite Ht, Hempty; done.
  - destruct (start_environment driver_world (sample_with_env (Some display)))
      as (m & rest & Ht & _ & _ & Hgiven).
    exists rest. rewrite Ht, (Hgiven display); [done|done|].
    unfold display. apply insert_non_empty.
Defined.

(** ** The caller's list *)

(** X9: [__init__] appends the log argument to the very list it was
    given, when that list is not empty: the caller's list is changed in
    place and the instance keeps a reference to it. *)
Lemma init_appends_in_place (W : World) (executable_path : string) (n : Z)
    (l : loc) (x : string) (xs : list string) (c : Ascii.ascii) (r : string)
    (e : option environ) (y : system) :
  heap y !! l = Some (x :: xs) ->
  exists o : object,
    constructed W executable_path n (Some l) (Some (String c r)) e y o
    /\ service_args (self o) = l
    /\ heap (sys o)
       = <[l := (x :: xs) ++ ["--log-path=" +:+ String c r]]> (heap y).
Proof.
  intros Hl. destruct y as [h t].
  unfold constructed, __init__, service_args_or_new, bind, load, list_append,
    free_port, call, ret.
  simpl in *. rewrite Hl. simpl.
  destruct (n =? 0); simpl; eexists {| self := _; sys := _ |}; simpl;
    (split; [reflexivity|]); by rewrite ?Hl.
Qed.

(** Two instances built from one list share it: the second is started with
    the log arguments of both. *)
Example shared_list_collects_log_paths :
  exists o1 o2 : object,
    constructed driver_world "chromedriver" 9515 (Some 0%nat)
      (Some "first.log") None boot o1
    /\ constructed driver_world "chromedriver" 9516 (Some 0%nat)
         (Some "second.log") None (sys o1) o2
    /\ spawn_argv o2 =
       ["chromedriver"; "--port=9516"; "--verbose"; "--log-path=first.log";
        "--log-path=second.log"].
Proof.
  eexists {| self := _; sys := _ |}, {| self := _; sys := _ |}.
  split; [by vm_compute|]. split; [by vm_compute|]. by vm_compute.
Qed.

(** ** The footprint of the loops *)

Lemma slept_app (a b : list event) : slept (a ++ b) = slept a + slept b.
Proof.
  induction a as [|ev a IH]; [reflexivity|].
  simpl. rewrite IH. destruct ev; lia.
Qed.

Lemma slept_rounds (k : nat) (n : Z) : slept (rounds k n) = Z.of_nat k.
Proof.
  induction k as [|k IH]; [reflexivity|].
  rewrite rounds_S, slept_app, IH. simpl. lia.
Qed.

Lemma slept_cleanup (c : list event) :
  Forall (fun ev => is_cleanup ev = true) c -> slept c = 0.
Proof.
  induction 1 as [|ev c Hev _ IH]; [reflexivity|].
  simpl. rewrite IH. by destruct ev.
Qed.

Lemma attempts_cleanup (c : list event) :
  Forall (fun ev => is_cleanup ev = true) c -> attempts c = 0%nat.
Proof.
  induction 1 as [|ev c Hev _ IH]; [reflexivity|].
  change (ev :: c) with ([ev] ++ c). rewrite attempts_app, IH.
  by destruct ev.
Qed.

Lemma attempts_nil : attempts [] = 0%nat.
Proof. reflexivity. Qed.

Lemma attempts_probe (n : Z) : attempts [is_connectable_ev n] = 1%nat.
Proof. reflexivity. Qed.

Lemma attempts_round (n : Z) : attempts (round n) = 1%nat.
Proof. reflexivity. Qed.

Ltac count_events :=
  rewrite ?attempts_app, ?slept_app, ?attempts_nil, ?attempts_probe,
    ?attempts_round;
  simpl; lia.

Section Footprint.

Variable W : World.

(** From [count], the loop of [start] makes at most [30 - count] attempts
    and sleeps as many seconds at most. *)
Lemma start_poll_bound (fuel : nat) :
  forall (count : Z) (o : object),
    0 <= count < 30 ->
    exists t,
      snd (start_poll W fuel count o) = logged o t
      /\ Forall (fun ev => is_poll ev = true) t
      /\ Z.of_nat (attempts t) <= 30 - count
      /\ slept t <= 30 - count.
Proof.
  induction fuel as [|fuel IH]; intros count o Hc.
  - exists []. rewrite logged_nil. split; [reflexivity|].
    split; [constructor|]. count_events.
  - rewrite start_poll_S.
    destruct (utils_is_connectable W _ _).
    + eexists. split; [reflexivity|].
      split; [by repeat constructor|]. count_events.
    + destruct (count + 1 =? 30) eqn:E.
      * eexists. split; [reflexivity|].
        split; [by repeat constructor|]. count_events.
      * destruct (IH (count + 1) (logged o (round (port (self o)))))
          as (t & Ht & Hp & Ha & Hs); [lia|].
        exists (round (port (self o)) ++ t).
        rewrite Ht, logged_logged. split; [reflexivity|].
        split; [by repeat constructor|].
        count_events.
Qed.


(** The port opens after [j] refused attempts. *)
Lemma start_poll_opens (j : nat) :
  forall (fuel : nat) (count : Z) (o : object),
    (forall i, (i < j)%nat ->
       utils_is_connectable W (port (self o))
         (trace (sys o) ++ rounds i (port (self o))) = false) ->
    utils_is_connectable W (port (self o))
      (trace (sys o) ++ rounds j (port (self o))) = true ->
    count + Z.of_nat j < 30 -> (j < fuel)%nat ->
    start_poll W fuel count o =
    (Return tt,
     logged o (rounds j (port (self o))
                 ++ [is_connectable_ev (port (self o))])).
Proof.
  induction j as [|j IH]; intros fuel count o Hclosed Hopen Hc Hf;
    (destruct fuel as [|fuel]; [lia|]); rewrite start_poll_S.
  - unfold rounds in Hopen. simpl in Hopen. rewrite app_nil_r in Hopen.
    by rewrite Hopen.
  - assert (H0 := Hclosed 0%nat ltac:(lia)).
    unfold rounds in H0. simpl in H0. rewrite app_nil_r in H0. rewrite H0.
    replace (count + 1 =? 30) with false by lia.
    rewrite (IH fuel (count + 1) (logged o (round (port (self o))))).
    + by rewrite logged_logged, rounds_S, <- app_assoc.
    + intros i Hi. cbn [logged self sys trace].
      rewrite <- app_assoc, <- rounds_S. apply Hclosed. lia.
    + cbn [logged self sys trace]. by rewrite <- app_assoc, <- rounds_S.
    + lia.
    + lia.
Qed.

(** The port goes dark after [j] accepted attempts. *)
Lemma stop_poll_closes (j : nat) :
  forall (fuel : nat) (count : Z) (o : object),
    (forall i, (i < j)%nat ->
       utils_is_connectable W (port (self o))
         (trace (sys o) ++ rounds i (port (self o))) = true) ->
    utils_is_connectable W (port (self o))
      (trace (sys o) ++ rounds j (port (self o))) = false ->
    count + Z.of_nat j <= 30 -> (j < fuel)%nat ->
    stop_poll W fuel count o =
    (Return tt,
     logged o (rounds j (port (self o))
                 ++ [is_connectable_ev (port (self o))])).
Proof.
  induction j as [|j IH]; intros fuel count o Hopen Hclosed Hc Hf;
    (destruct fuel as [|fuel]; [lia|]); rewrite stop_poll_S.
  - unfold rounds in Hclosed. simpl in Hclosed.
    rewrite app_nil_r in Hclosed. by rewrite Hclosed.
  - assert (H0 := Hopen 0%nat ltac:(lia)).
    unfold rounds in H0. simpl in H0. rewrite app_nil_r in H0. rewrite H0.
    replace (count =? 30) with false by lia.
    rewrite (IH fuel (count + 1) (logged o (round (port (self o))))).
    + by rewrite logged_logged, rounds_S, <- app_assoc.
    + intros i Hi. cbn [logged self sys trace].
      rewrite <- app_assoc, <- rounds_S. apply Hopen. lia.
    + cbn [logged self sys trace]. by rewrite <- app_assoc, <- rounds_S.
    + lia.
    + lia.
Qed.

(** The port never goes dark: the loop of [stop] gives up at
    [count = 30]. *)
Lemma stop_poll_stays_open (k : nat) :
  forall (fuel : nat) (count : Z) (o : object),
    (forall t, utils_is_connectable W (port (self o)) t = true) ->
    count + Z.of_nat k = 30 -> (k < fuel)%nat ->
    stop_poll W fuel count o =
    (Return tt,
     logged o (rounds k (port (self o))
                 ++ [is_connectable_ev (port (self o))])).
Proof.
  induction k as [|k IH]; intros fuel count o Hopen Hc Hf;
    (destruct fuel as [|fuel]; [lia|]); rewrite stop_poll_S, Hopen.
  - by replace (count =? 30) with true by lia.
  - replace (count =? 30) with false by lia.
    rewrite (IH fuel (count + 1) (logged o (round (port (self o)))));
      [|exact Hopen|lia|lia].
    by rewrite logged_logged, rounds_S, <- app_assoc.
Qed.

(** *** The cleanup of [stop] *)




End Footprint.

(** ** Further properties of [start] *)

(** X1: whatever the machine answers, one [start()] makes exactly one
    spawn, as its first call, and after it only connection attempts and
    sleeps, at most 30 attempts and at most 30 seconds of sleep; it never
    requests a shutdown, closes a stream, kills or waits, so the process it
    spawned is still running when it raises. *)
Theorem start_footprint (W : World) (o : object) :
  exists polls : list event,
    start_events W o = spawn_ev W o :: polls
    /\ Forall (fun ev => is_poll ev = true) polls
    /\ (attempts polls <= 30)%nat
    /\ slept polls <= 30.
Proof.
  unfold start_events.
  destruct (subprocess_Popen W (spawn_argv o) (spawn_env W o) (trace (sys o)))
    as [p|e] eqn:Hp.
  - rewrite (start_spawned W o p Hp).
    destruct (start_poll_bound W 30 0 (moved o (IsPopen p) [spawn_ev W o]))
      as (t & Ht & Hpoll & Ha & Hs); [lia|].
    exists t. rewrite Ht. cbn [logged moved sys trace].
    rewrite <- app_assoc, drop_app_length.
    split; [done|]. split; [done|]. lia.
  - rewrite (start_not_spawned W o e Hp).
    destruct (start_except_raises (self o) e (logged o [spawn_ev W o]))
      as [e' He']. rewrite He'. exists []. cbn [snd logged sys trace].
    rewrite drop_app_length. split; [done|]. split; [constructor|].
    count_events.
Qed.

(** X3: when the spawned driver refuses [j] connection attempts, for any
    [j] below 30, and accepts the next one, [start()] returns after
    [j + 1] attempts and [j] sleeps, with the process bound to
    [self.process]. *)
Theorem start_opens_late (W : World) (o : object) (p : Popen) (j : nat) :
  subprocess_Popen W (spawn_argv o) (spawn_env W o) (trace (sys o)) = Ok p ->
  (forall i, (i < j)%nat ->
     utils_is_connectable W (port (self o))
       (trace (sys o) ++ spawn_ev W o :: rounds i (port (self o))) = false) ->
  utils_is_connectable W (port (self o))
    (trace (sys o) ++ spawn_ev W o :: rounds j (port (self o))) = true ->
  (j < 30)%nat ->
  start W o =
  (Return tt,
   moved o (IsPopen p)
     (spawn_ev W o :: rounds j (port (self o))
        ++ [is_connectable_ev (port (self o))])).
Proof.
  intros Hp Hclosed Hopen Hj. rewrite (start_spawned W o p Hp).
  rewrite (start_poll_opens W j 30 0 (moved o (IsPopen p) [spawn_ev W o])).
  - by rewrite logged_moved, moved_moved.
  - intros i Hi. cbn [moved self sys trace with_process port].
    rewrite <- app_assoc. by apply Hclosed.
  - cbn [moved self sys trace with_process port]. by rewrite <- app_assoc.
  - lia.
  - lia.
Qed.

Lemma start_opens_late_witness :
  fst (start (slow_world 2) sample) = Return tt
  /\ attempts (start_events (slow_world 2) sample) = 3%nat
  /\ slept (start_events (slow_world 2) sample) = 2.
Proof.
  assert (H := start_opens_late (slow_world 2) sample {| pid := 4242 |} 2).
  rewrite H.
  - by vm_compute.
  - by vm_compute.
  - intros i Hi. destruct i as [|[|i]]; [by vm_compute..|lia].
  - by vm_compute.
  - lia.
Defined.

(** ** Further properties of [stop] *)




(** The cleanup at work on the machine without [kill]: the wait is not
    made. *)
Example until_raise_without_kill :
  until_raise windows_world (cleanup_of {| pid := 4242 |}) []
  = [stdout_close_ev {| pid := 4242 |}; stderr_close_ev {| pid := 4242 |};
     kill_ev {| pid := 4242 |}].
Proof. reflexivity. Qed.

(** [stop()] with the shutdown request accepted and a cleanup that goes
    through, given what the polling did. *)
Lemma stop_after_polls (W : World) (o : object) (p : Popen)
    (polls : list event) :
  process (self o) = IsPopen p ->
  url_request_urlopen W (shutdown_url o) (trace (sys o)) = Ok tt ->
  stop_poll W 31 0 (logged o [urlopen_ev (shutdown_url o)])
  = (Return tt, logged (logged o [urlopen_ev (shutdown_url o)]) polls) ->
  (forall t, stdout_close W p t = Ok tt) ->
  (forall t, stderr_close W p t = Ok tt) ->
  (forall t, Popen_kill W p t = Ok tt) ->
  (forall t, Popen_wait W p t = Ok tt) ->
  stop W o =
  (Return tt,
   logged o (urlopen_ev (shutdown_url o) :: polls ++ cleanup_of p)).
Proof.
  intros Hp Hu Hpolls H1 H2 H3 H4.
  rewrite (stop_request_ok W o p Hp Hu), Hpolls. cbn [snd].
  rewrite (stop_cleanup_ok W _ p); try done.
  by rewrite !logged_logged.
Qed.

(** X4: when the shutdown request is accepted and the port goes dark after
    [j] more accepted connection attempts, for any [j] up to 30, [stop()]
    makes [j + 1] attempts and [j] sleeps and then closes both streams,
    kills and waits. *)
Theorem stop_waits_for_port (W : World) (o : object) (p : Popen) (j : nat) :
  process (self o) = IsPopen p ->
  url_request_urlopen W (shutdown_url o) (trace (sys o)) = Ok tt ->
  (forall i, (i < j)%nat ->
     utils_is_connectable W (port (self o))
       (trace (sys o) ++ urlopen_ev (shutdown_url o)
          :: rounds i (port (self o))) = true) ->
  utils_is_connectable W (port (self o))
    (trace (sys o) ++ urlopen_ev (shutdown_url o)
       :: rounds j (port (self o))) = false ->
  (j <= 30)%nat ->
  (forall t, stdout_close W p t = Ok tt) ->
  (forall t, stderr_close W p t = Ok tt) ->
  (forall t, Popen_kill W p t = Ok tt) ->
  (forall t, Popen_wait W p t = Ok tt) ->
  stop W o =
  (Return tt,
   logged o
     (urlopen_ev (shutdown_url o)
        :: (rounds j (port (self o)) ++ [is_connectable_ev (port (self o))])
        ++ cleanup_of p)).
Proof.
  intros Hp Hu Hopen Hclosed Hj H1 H2 H3 H4.
  apply stop_after_polls; try done.
  apply (stop_poll_closes W j 31 0 (logged o [urlopen_ev (shutdown_url o)])).
  - intros i Hi. cbn [logged self sys trace]. rewrite <- app_assoc.
    by apply Hopen.
  - cbn [logged self sys trace]. by rewrite <- app_assoc.
  - lia.
  - lia.
Qed.

Lemma stop_waits_for_port_witness :
  let o1 := snd (start (fading_world 3) sample) in
  fst (stop (fading_world 3) o1) = Return tt
  /\ attempts (stop_events (fading_world 3) o1) = 3%nat
  /\ slept (stop_events (fading_world 3) o1) = 2
  /\ cleanup_done (fading_world 3) o1 = cleanup_of {| pid := 4242 |}.
Proof.
  intros o1.
  assert (H := stop_waits_for_port (fading_world 3) o1 {| pid := 4242 |} 2).
  unfold cleanup_done, stop_events. rewrite H.
  - by vm_compute.
  - by vm_compute.
  - by vm_compute.
  - intros i Hi. destruct i as [|[|i]]; [by vm_compute..|lia].
  - by vm_compute.
  - lia.
  - done.
  - done.
  - done.
  - done.
Defined.

(** X5: when the shutdown request is accepted and the port never goes
    dark, [stop()] does not fail: after 31 connection attempts and 30
    sleeps it goes on to close both streams, kill and wait, and
    returns. *)
Theorem stop_gives_up_waiting (W : World) (o : object) (p : Popen) :
  process (self o) = IsPopen p ->
  url_request_urlopen W (shutdown_url o) (trace (sys o)) = Ok tt ->
  (forall t, utils_is_connectable W (port (self o)) t = true) ->
  (forall t, stdout_close W p t = Ok tt) ->
  (forall t, stderr_close W p t = Ok tt) ->
  (forall t, Popen_kill W p t = Ok tt) ->
  (forall t, Popen_wait W p t = Ok tt) ->
  stop W o =
  (Return tt,
   logged o
     (urlopen_ev (shutdown_url o)
        :: (rounds 30 (port (self o)) ++ [is_connectable_ev (port (self o))])
        ++ cleanup_of p))
  /\ attempts (stop_events W o) = 31%nat
  /\ slept (stop_events W o) = 30.
Proof.
  intros Hp Hu Hopen H1 H2 H3 H4.
  assert (Hs : stop W o =
               (Return tt,
                logged o
                  (urlopen_ev (shutdown_url o)
                     :: (rounds 30 (port (self o))
                           ++ [is_connectable_ev (port (self o))])
                     ++ cleanup_of p))).
  { apply stop_after_polls; try done.
    apply (stop_poll_stays_open W 30 31 0
             (logged o [urlopen_ev (shutdown_url o)])); [exact Hopen|lia|lia]. }
  split; [exact Hs|]. unfold stop_events. rewrite Hs. cbn [snd].
  rewrite drop_trace_logged.
  change (urlopen_ev (shutdown_url o)
            :: (rounds 30 (port (self o))
                  ++ [is_connectable_ev (port (self o))]) ++ cleanup_of p)
    with ([urlopen_ev (shutdown_url o)]
            ++ (rounds 30 (port (self o))
                  ++ [is_connectable_ev (port (self o))]) ++ cleanup_of p).
  rewrite !attempts_app, !slept_app, attempts_rounds, slept_rounds.
  by split.
Qed.

Lemma stop_gives_up_waiting_witness :
  let o1 := snd (start respawn_world sample) in
  fst (stop respawn_world o1) = Return tt
  /\ attempts (stop_events respawn_world o1) = 31%nat
  /\ slept (stop_events respawn_world o1) = 30
  /\ cleanup_done respawn_world o1 = cleanup_of {| pid := 4242 |}.
Proof.
  intros o1.
  destruct (stop_gives_up_waiting respawn_world o1 {| pid := 4242 |})
    as (Hs & Ha & Hz).
  - vm_compute. reflexivity.
  - vm_compute. reflexivity.
  - intros t. reflexivity.
  - intros t. reflexivity.
  - intros t. reflexivity.
  - intros t. reflexivity.
  - intros t. reflexivity.
  - unfold cleanup_done. rewrite Hs. cbn [fst snd].
    split; [reflexivity|]. split; [exact Ha|]. split; [exact Hz|].
    vm_compute. reflexivity.
Defined.

Lemma cleanup_done_shape (W : World) (o : object) (u : event)
    (polls c : list event) :
  is_cleanup u = false ->
  Forall (fun ev => is_poll ev = true) polls ->
  Forall (fun ev => is_cleanup ev = true) c ->
  stop_events W o = u :: polls ++ c ->
  cleanup_done W o = c.
Proof.
  intros Hu Hpolls Hc Hev. unfold cleanup_done.
  fold (stop_events W o). rewrite Hev. simpl. rewrite Hu.
  rewrite List.filter_app.
  replace (List.filter is_cleanup polls) with (@nil event).
  - simpl. clear -Hc. induction Hc as [|ev c Hev _ IH]; [done|].
    simpl. by rewrite Hev, IH.
  - clear -Hpolls. induction Hpolls as [|ev l Hev _ IH]; [done|].
    simpl. destruct ev; try done; exact IH.
Qed.

(** X6: when [kill] raises an [OSError] (it is not there on some
    platforms), [stop()] returns all the same, having closed both streams
    and tried the kill; it does not wait for the process. *)
Theorem stop_without_kill (W : World) (o : object) (p : Popen)
    (errno : option Z) (m : string) :
  process (self o) = IsPopen p ->
  url_request_urlopen W (shutdown_url o) (trace (sys o)) = Ok tt ->
  (forall t, stdout_close W p t = Ok tt) ->
  (forall t, stderr_close W p t = Ok tt) ->
  (forall t, Popen_kill W p t = Fails (OSError errno m)) ->
  fst (stop W o) = Return tt
  /\ cleanup_done W o = [stdout_close_ev p; stderr_close_ev p; kill_ev p].
Proof.
  intros Hp Hu H1 H2 H3.
  destruct (stop_poll_frame W 31 0 (logged o [urlopen_ev (shutdown_url o)]))
    as (polls & Hpolls & Hpoll).
  assert (Hs : stop W o =
               (Return tt,
                logged o
                  (urlopen_ev (shutdown_url o)
                     :: polls
                     ++ [stdout_close_ev p; stderr_close_ev p; kill_ev p]))).
  { rewrite (stop_request_ok W o p Hp Hu), Hpolls.
    rewrite (stop_cleanup_kill_missing W _ p errno m); try done.
    by rewrite !logged_logged. }
  split; [by rewrite Hs|].
  apply (cleanup_done_shape W o (urlopen_ev (shutdown_url o)) polls);
    [done|done|by repeat constructor|].
  unfold stop_events. rewrite Hs. cbn [snd]. apply drop_trace_logged.
Qed.

Lemma stop_without_kill_witness :
  let o1 := snd (start windows_world sample) in
  fst (stop windows_world o1) = Return tt
  /\ cleanup_done windows_world o1
     = [stdout_close_ev {| pid := 4242 |}; stderr_close_ev {| pid := 4242 |};
        kill_ev {| pid := 4242 |}].
Proof.
  intros o1.
  apply (stop_without_kill windows_world o1 {| pid := 4242 |} (Some 22)
           "Invalid argument").
  - vm_compute. reflexivity.
  - vm_compute. reflexivity.
  - intros t. reflexivity.
  - intros t. reflexivity.
  - intros t. reflexivity.
Defined.






(** X12: on an instance that never held a process, a [start()] whose
    spawn fails leaves [self.process] missing, so the [stop()] that
    follows (as in a [finally] clause) raises [AttributeError]. *)
Theorem stop_after_failed_spawn (W : World) (o : object) (e : exn) :
  process (self o) = NoAttribute ->
  subprocess_Popen W (spawn_argv o) (spawn_env W o) (trace (sys o))
  = Fails e ->
  stop W (snd (start W o)) =
  (Raise (AttributeError "'Service' object has no attribute 'process'"),
   snd (start W o)).
Proof.
  intros Hp Hspawn. apply stop_no_attribute.
  rewrite (start_not_spawned W o e Hspawn).
  destruct (start_except_raises (self o) e (logged o [spawn_ev W o]))
    as [e' He']. by rewrite He'.
Qed.

Lemma stop_after_failed_spawn_witness :
  fst (stop (broken_world (OSError (Some 2) "No such file or directory"))
         (snd (start (broken_world
                        (OSError (Some 2) "No such file or directory"))
                 sample)))
  = Raise (AttributeError "'Service' object has no attribute 'process'").
Proof.
  rewrite (stop_after_failed_spawn
             (broken_world (OSError (Some 2) "No such file or directory"))
             sample (OSError (Some 2) "No such file or directory")).
  - reflexivity.
  - reflexivity.
  - vm_compute. reflexivity.
Defined.

(** ** Further properties of the constructor *)

(** X8: an empty list passed as [service_args] is not the list the
    instance keeps: [service_args or []] takes a new list, the log
    argument goes there, and the caller's list stays empty. *)
Theorem init_empty_list_replaced (W : World) (executable_path : string)
    (n : Z) (l : loc) (lp : option string) (e : option environ) (y : system) :
  heap y !! l = Some [] ->
  exists o : object,
    constructed W executable_path n (Some l) lp e y o
    /\ service_args (self o) = length (heap y)
    /\ service_args (self o) <> l
    /\ heap (sys o) !! l = Some []
    /\ extra_args o = log_entry lp.
Proof.
  intros Hl.
  destruct (init_spec W executable_path n (Some l) lp e y)
    as (o & Ho & _ & _ & _ & _ & _ & Hargs).
  exists o. split; [exact Ho|].
  assert (Hlt : (l < length (heap y))%nat) by (by apply lookup_lt_Some in Hl).
  assert (Hfresh : service_args (self o) = length (heap y)
                   /\ heap (sys o) !! l = Some []).
  { clear Hargs. destruct y as [h t], o as [s y'].
    unfold constructed, __init__, service_args_or_new, bind, load, new_list,
      list_append, free_port, call, ret in Ho.
    simpl in *. rewrite Hl in Ho. simpl in Ho.
    destruct lp as [[|c r]|]; simpl in Ho; destruct (n =? 0); simpl in Ho;
      injection Ho as <- <-; simpl; (split; [reflexivity|]);
      rewrite ?list_lookup_insert_ne by lia; by rewrite lookup_app_l. }
  destruct Hfresh as [Hsa Hkept].
  split; [exact Hsa|]. split; [lia|]. split; [exact Hkept|].
  rewrite Hargs. simpl. by rewrite Hl.
Qed.

Lemma init_empty_list_replaced_witness :
  exists o : object,
    constructed driver_world "chromedriver" 9515 (Some 0%nat)
      (Some "driver.log") None bare o
    /\ service_args (self o) = 1%nat
    /\ heap (sys o) = [[]; ["--log-path=driver.log"]].
Proof.
  destruct (init_empty_list_replaced driver_world "chromedriver" 9515 0%nat
              (Some "driver.log") None bare)
    as (o & Ho & Hsa & _); [reflexivity|].
  exists o. split; [exact Ho|]. split; [exact Hsa|].
  destruct o as [s y']. unfold constructed in Ho. cbn [self sys] in *.
  vm_compute in Ho. by injection Ho as _ <-.
Defined.

(** X9 at work: a list with one argument is the list the instance keeps,
    and it is that list which gets the log argument. *)
Lemma init_appends_in_place_witness :
  exists o : object,
    constructed driver_world "chromedriver" 9515 (Some 0%nat)
      (Some "driver.log") None boot o
    /\ service_args (self o) = 0%nat
    /\ heap (sys o) = [["--verbose"; "--log-path=driver.log"]].
Proof.
  destruct (init_appends_in_place driver_world "chromedriver" 9515 0%nat
              "--verbose" [] (Ascii.ascii_of_nat 100) "river.log" None boot)
    as (o & Ho & Hsa & Hheap); [reflexivity|].
  exists o. split; [exact Ho|]. split; [exact Hsa|]. exact Hheap.
Defined.

(** X10 at work: port [9515] is kept and no call is made. *)
Lemma port_given_witness :
  exists o : object,
    constructed driver_world "chromedriver" 9515 None None None boot o
    /\ port (self o) = 9515 /\ trace (sys o) = [].
Proof.
  apply (port_given driver_world "chromedriver" 9515 None None None boot).
  discriminate.
Defined.

(** ** Further properties of a whole life *)

(** X14: whatever is called on an instance, and whatever the calls raise,
    its executable path, its environment argument and its list of extra
    arguments stay what they were (no method assigns them, and no method
    touches a list), and every spawn is made with one and the same
    environment. *)
Theorem lifetime_keeps_configuration (W : World) (ms : list method)
    (o : object) :
  let o' := lifetime W ms o in
  path (self o') = path (self o)
  /\ env (self o') = env (self o)
  /\ service_args (self o') = service_args (self o)
  /\ heap (sys o') = heap (sys o)
  /\ exists t,
       trace (sys o') = trace (sys o) ++ t
       /\ Forall
            (fun ev => match ev with
                       | Popen_ev _ m => m = spawn_env W o
                       | _ => True
                       end) t.
Proof.
  intros o'. destruct (lifetime_frame W ms o) as (v & t & Ho' & Ht).
  subst o'. rewrite Ho'. repeat (split; [reflexivity|]).
  exists t. split; [reflexivity|].
  eapply Forall_impl; [exact Ht|]. intros ev Hev.
  destruct ev; try done. by destruct Hev.
Qed.

(** ** The name in the messages *)

Lemma basename_from_no_slash (s : string) :
  forall cur : string, has_slash s = false -> basename_from cur s = cur.
Proof.
  induction s as [|c s IH]; intros cur Hs; [reflexivity|].
  simpl in *. destruct (Ascii.eqb c slash); [discriminate Hs|].
  by apply IH.
Qed.

Lemma basename_from_join (dir name : string) :
  forall cur : string,
    has_slash name = false ->
    basename_from cur (dir +:+ String slash name) = name.
Proof.
  induction dir as [|c dir IH]; intros cur Hs.
  - change ("" +:+ String slash name) with (String slash name).
    cbn [basename_from]. rewrite Ascii.eqb_refl.
    by apply basename_from_no_slash.
  - change (String c dir +:+ String slash name)
      with (String c (dir +:+ String slash name)).
    cbn [basename_from]. destruct (Ascii.eqb c slash); by apply IH.
Qed.

Lemma basename_join (dir name : string) :
  has_slash name = false -> basename (dir +:+ "/" +:+ name) = name.
Proof. intros Hs. by apply (basename_from_join dir name). Qed.

(** X15: for an executable path [<dir>/<name>], with no slash in
    [<name>], the messages of [start()] name [<name>] alone: when the
    spawn fails with [ENOENT], and when the port stays closed. *)
Theorem start_names_executable (W : World) (o : object) (dir name : string) :
  path (self o) = dir +:+ "/" +:+ name ->
  has_slash name = false ->
  (forall m,
     subprocess_Popen W (spawn_argv o) (spawn_env W o) (trace (sys o))
     = Fails (OSError (Some ENOENT) m) ->
     fst (start W o) =
     Raise (WebDriverException
              ("'" +:+ name +:+ "' executable needs to be in PATH. "
                   +:+ "Please see https://sites.google.com/a/chromium.org/chromedriver/home")))
  /\ (forall p,
        subprocess_Popen W (spawn_argv o) (spawn_env W o) (trace (sys o))
        = Ok p ->
        (forall t, utils_is_connectable W (port (self o)) t = false) ->
        fst (start W o) =
        Raise (WebDriverException
                 ("Can not connect to the '" +:+ name +:+ "'"))).
Proof.
  intros Hpath Hs. split.
  - intros m Hspawn. rewrite (start_not_spawned W o _ Hspawn). simpl.
    by rewrite Hpath, (basename_join dir name Hs).
  - intros p Hspawn Hclosed. rewrite (start_spawned W o p Hspawn).
    rewrite (start_poll_closed W 29 30 0); [|exact Hclosed|lia|lia].
    unfold unreachable_msg. cbn [fst moved self path with_process].
    by rewrite Hpath, (basename_join dir name Hs).
Qed.

Lemma start_names_executable_witness :
  fst (start (broken_world (OSError (Some 2) "No such file or directory"))
         sample)
  = Raise (WebDriverException
             "'chromedriver' executable needs to be in PATH. Please see https://sites.google.com/a/chromium.org/chromedriver/home")
  /\ fst (start deaf_world sample)
     = Raise (WebDriverException "Can not connect to the 'chromedriver'").
Proof.
  split.
  - destruct (start_names_executable
                (broken_world (OSError (Some 2) "No such file or directory"))
                sample "/usr/local/bin" "chromedriver")
      as [Hnf _]; [reflexivity|reflexivity|].
    apply (Hnf "No such file or directory"). vm_compute. reflexivity.
  - destruct (start_names_executable deaf_world sample "/usr/local/bin"
                "chromedriver")
      as [_ Hun]; [reflexivity|reflexivity|].
    apply (Hun {| pid := 4242 |}); [vm_compute; reflexivity|].
    intros t. reflexivity.
Defined.
